(** * FreeCAD job server: orchestration and status reconciliation

    A shallow embedding of the job-orchestration core of the server:
    - [worker.py]: [execute_freecad_script], the two derived-artifact
      converters and the failure classifier [_extract_error_hint];
    - [mqtt_client.py]: the Progress Channel ([publish_progress],
      [publish_status], [_on_message], [get_progress]);
    - [app.py]: the [GET /status], [GET /result] and [GET /download]
      handlers.

    Python [str] values are modelled as [string], one [ascii] per code point
    (code points 0..255).  External behaviour (the CAD process, the
    converters, the file system listing, the queue contents) is supplied by
    oracle records; the code's own control flow, exception handling and
    string computations are embedded as executable definitions. *)

From Stdlib Require Import ZArith Ascii Lia Bool.
From stdpp Require Import base gmap strings list pretty.

(* ===================================================================== *)
(** * Python string and path primitives used by the code                 *)
(* ===================================================================== *)

Module PyStr.

Definition nl : string := String (ascii_of_nat 10) "".

(** [s.startswith(p)] *)
Fixpoint startswith (p s : string) : bool :=
  match p, s with
  | EmptyString, _ => true
  | String a p', String b s' => Ascii.eqb a b && startswith p' s'
  | String _ _, EmptyString => false
  end.

(** [needle in hay] for two [str]: contiguous-substring test. *)
Fixpoint py_in (needle hay : string) : bool :=
  startswith needle hay ||
  match hay with
  | EmptyString => false
  | String _ rest => py_in needle rest
  end.

Fixpoint str_take (n : nat) (s : string) : string :=
  match n, s with
  | S n', String c r => String c (str_take n' r)
  | _, _ => ""
  end.

Fixpoint str_drop (n : nat) (s : string) : string :=
  match n, s with
  | S n', String _ r => str_drop n' r
  | _, _ => s
  end.

(** [s.endswith(suf)] *)
Definition endswith (suf s : string) : bool :=
  let n := String.length s in
  let k := String.length suf in
  (k <=? n)%nat && String.eqb (str_drop (n - k) s) suf.

Fixpoint str_all (f : ascii -> bool) (s : string) : bool :=
  match s with
  | EmptyString => true
  | String c r => f c && str_all f r
  end.

Definition has_char (c : ascii) (s : string) : bool :=
  negb (str_all (fun a => negb (Ascii.eqb a c)) s).

(** [s.rfind(c)] for a one-character [c]: the last index, or [-1]. *)
Fixpoint rfind_from (c : ascii) (s : string) (i acc : Z) : Z :=
  match s with
  | EmptyString => acc
  | String a r => rfind_from c r (i + 1) (if Ascii.eqb a c then i else acc)
  end.

Definition rfind (c : ascii) (s : string) : Z := rfind_from c s 0 (-1).

(** [s.lower()] on code points 0..255: A-Z and the Latin-1 capitals. *)
Definition lower_char (c : ascii) : ascii :=
  let n := nat_of_ascii c in
  if ((65 <=? n) && (n <=? 90))%nat then ascii_of_nat (n + 32)
  else if ((192 <=? n) && (n <=? 222) && negb (n =? 215))%nat
       then ascii_of_nat (n + 32)
       else c.

Fixpoint lower (s : string) : string :=
  match s with
  | EmptyString => EmptyString
  | String c r => String (lower_char c) (lower r)
  end.

(** [s.split(sep)] for a one-character separator. *)
Fixpoint split_on (sep : ascii) (s : string) : list string :=
  match s with
  | EmptyString => [""]
  | String c r =>
      if Ascii.eqb c sep then "" :: split_on sep r
      else match split_on sep r with
           | h :: t => String c h :: t
           | [] => [String c ""]
           end
  end.

(** [sep.join(parts)] *)
Fixpoint join (sep : string) (parts : list string) : string :=
  match parts with
  | [] => ""
  | [p] => p
  | p :: rest => p +:+ sep +:+ join sep rest
  end.

(** Line boundaries of [str.splitlines()] among code points 0..255. *)
Definition is_linebreak (c : ascii) : bool :=
  let n := nat_of_ascii c in
  ((n =? 10) || (n =? 11) || (n =? 12) || (n =? 13) ||
   (n =? 28) || (n =? 29) || (n =? 30) || (n =? 133))%nat.

Fixpoint splitlines_from (s cur : string) : list string :=
  match s with
  | EmptyString => if String.eqb cur "" then [] else [cur]
  | String c r =>
      if (nat_of_ascii c =? 13)%nat then
        match r with
        | String c' r' =>
            if (nat_of_ascii c' =? 10)%nat
            then cur :: splitlines_from r' ""
            else cur :: splitlines_from r ""
        | EmptyString => [cur]
        end
      else if is_linebreak c then cur :: splitlines_from r ""
      else splitlines_from r (cur +:+ String c "")
  end.

(** [s.splitlines()] *)
Definition splitlines (s : string) : list string := splitlines_from s "".

(** [xs[-n:]] *)
Definition last_n {A} (n : nat) (xs : list A) : list A :=
  drop (length xs - n) xs.

(** [os.path.splitext(p)] (posix: separator "/", extension mark "."):
    the extension starts at the last dot of the last component, unless
    that component consists of leading dots only up to it. *)
Definition splitext (p : string) : string * string :=
  let sepIndex := rfind "/" p in
  let dotIndex := rfind "." p in
  if (sepIndex <? dotIndex)%Z then
    let first := Z.to_nat (sepIndex + 1) in
    let dot := Z.to_nat dotIndex in
    if str_all (fun a => Ascii.eqb a ".") (str_take (dot - first) (str_drop first p))
    then (p, "")
    else (str_take dot p, str_drop dot p)
  else (p, "").

(** [os.path.join(a, b)] (posix). *)
Definition os_path_join (a b : string) : string :=
  if startswith "/" b then b
  else if String.eqb a "" || endswith "/" a then a +:+ b
  else a +:+ "/" +:+ b.

Fixpoint rstrip_slash_rev (r : list ascii) : list ascii :=
  match r with
  | c :: r' => if Ascii.eqb c "/" then rstrip_slash_rev r' else r
  | [] => []
  end.

(** [s.rstrip("/")] *)
Definition rstrip_slash (s : string) : string :=
  String.string_of_list_ascii (rev (rstrip_slash_rev (rev (String.list_ascii_of_string s)))).

(** [os.path.dirname(p)] (posix). *)
Definition os_path_dirname (p : string) : string :=
  let i := Z.to_nat (rfind "/" p + 1) in
  let head := str_take i p in
  if negb (String.eqb head "") && negb (str_all (fun a => Ascii.eqb a "/") head)
  then rstrip_slash head
  else head.

(** The components pathlib keeps of a posix path: empty and "." parts
    are dropped. *)
Definition path_parts (p : string) : list string :=
  List.filter (fun c => negb (String.eqb c "") && negb (String.eqb c "."))
              (split_on "/" p).

Definition path_root (p : string) : string :=
  if startswith "//" p && negb (startswith "///" p) then "//"
  else if startswith "/" p then "/" else "".

(** [Path(a) / b], unparsed: pathlib joins the two segments as
    [os.path.join] does ([Path("/") / "x"] is "/x", [Path("") / "x"] is
    "x"); [path_str], [path_name] and [path_stem] parse the result. *)
Definition path_div (a b : string) : string := os_path_join a b.

(** [str(Path(p))] *)
Definition path_str (p : string) : string :=
  match path_root p, path_parts p with
  | EmptyString, [] => "."
  | r, parts => r +:+ join "/" parts
  end.

(** [Path(p).name] *)
Definition path_name (p : string) : string :=
  default "" (last (path_parts p)).

(** [Path(p).stem] *)
Definition path_stem (p : string) : string :=
  let name := path_name p in
  let i := rfind "." name in
  if ((0 <? i) && (i <? Z.of_nat (String.length name) - 1))%Z
  then str_take (Z.to_nat i) name
  else name.

(** [f"{n}"] for an [int]. *)
Definition str_of_Z (z : Z) : string := pretty z.
Definition str_of_nat (n : nat) : string := pretty n.

(** [s.replace(old, new)] for a non-empty [old]: the occurrences are
    replaced from left to right, without overlap. *)
Fixpoint replace_from (old new s : string) (skip : nat) : string :=
  match s with
  | EmptyString => ""
  | String c r =>
      match skip with
      | S k => replace_from old new r k
      | O =>
          if startswith old s
          then new +:+ replace_from old new r (String.length old - 1)
          else String c (replace_from old new r 0)
      end
  end.

Definition replace (old new s : string) : string := replace_from old new s 0.

(** [repr(s)]: single quotes, unless the string holds a single quote and
    no double quote; the quote character, the backslash and the characters
    that are not printable are escaped. *)
Definition dquote : ascii := ascii_of_nat 34.

Definition hex_digit (n : nat) : ascii :=
  if (n <? 10)%nat then ascii_of_nat (48 + n) else ascii_of_nat (87 + n).

Definition is_printable (c : ascii) : bool :=
  let n := nat_of_ascii c in
  ((32 <=? n) && (n <=? 126) || (161 <=? n) && negb (n =? 173))%nat.

Definition repr_char (quote c : ascii) : string :=
  let n := nat_of_ascii c in
  if Ascii.eqb c quote || Ascii.eqb c "\" then String "\" (String c "")
  else if (n =? 9)%nat then "\t"
  else if (n =? 10)%nat then "\n"
  else if (n =? 13)%nat then "\r"
  else if is_printable c then String c ""
  else String "\" (String "x" (String (hex_digit (n / 16)) (String (hex_digit (n mod 16)) ""))).

Fixpoint repr_body (quote : ascii) (s : string) : string :=
  match s with
  | EmptyString => String quote ""
  | String c r => repr_char quote c +:+ repr_body quote r
  end.

Definition repr (s : string) : string :=
  let quote := if has_char "'" s && negb (has_char dquote s) then dquote else "'"%char in
  String quote (repr_body quote s).

(** What [int(s)] does with a [str]: the value, or one of its two
    [ValueError]s. *)
Inductive int_result :=
| IntValue (z : Z)
| IntInvalid                      (* invalid literal for int() with base 10 *)
| IntTooLong (digits : nat).      (* Exceeds the limit for integer string conversion *)

(** The white space [int] skips at both ends. *)
Definition is_int_space (c : ascii) : bool :=
  let n := nat_of_ascii c in
  ((9 <=? n) && (n <=? 13) || (n =? 32) || (n =? 133) || (n =? 160))%nat.

Definition is_digit (c : ascii) : bool :=
  let n := nat_of_ascii c in ((48 <=? n) && (n <=? 57))%nat.

Fixpoint lstrip_int_space (s : string) : string :=
  match s with
  | String c r => if is_int_space c then lstrip_int_space r else s
  | EmptyString => ""
  end.

(** The digits of a literal, single underscores between them allowed:
    the value, the number of digits and what follows them; [None] for two
    underscores in a row and for a trailing underscore. *)
Fixpoint scan_digits (s : string) (acc : Z) (digits : nat) (after_underscore : bool)
  : option (Z * nat * string) :=
  match s with
  | String c r =>
      if is_digit c
      then scan_digits r (acc * 10 + Z.of_nat (nat_of_ascii c - 48)) (S digits) false
      else if Ascii.eqb c "_"
           then if after_underscore then None else scan_digits r acc digits true
           else if after_underscore then None else Some (acc, digits, s)
  | EmptyString => if after_underscore then None else Some (acc, digits, "")
  end.

(** [int(s)], base 10.  [max_str_digits] is
    [sys.get_int_max_str_digits()], 0 when there is no limit. *)
Definition int_of_str (max_str_digits : nat) (s : string) : int_result :=
  let s := lstrip_int_space s in
  let '(negative, s) :=
    match s with
    | String c r =>
        if Ascii.eqb c "-" then (true, r)
        else if Ascii.eqb c "+" then (false, r) else (false, s)
    | EmptyString => (false, s)
    end in
  if startswith "_" s then IntInvalid
  else
    match scan_digits s 0 0 false with
    | None => IntInvalid
    | Some (value, digits, rest) =>
        if ((640 <? digits) && (0 <? max_str_digits) && (max_str_digits <? digits))%nat
        then IntTooLong digits
        else if (digits =? 0)%nat then IntInvalid
        else if str_all is_int_space rest
             then IntValue (if negative then (- value)%Z else value)
             else IntInvalid
    end.

End PyStr.

Import PyStr.

(* ===================================================================== *)
(** * Values, exceptions and effects                                     *)
(* ===================================================================== *)

(** JSON values as [json.loads] returns them: [None], [bool], [int],
    [float] (by its binary64 bit pattern), [str], [list] and [dict].  The
    messages of the Progress Channel are dicts of [None], [int] and [str]. *)
#[warnings="-register-all"]
Inductive jval :=
| JNull
| JBool (b : bool)
| JInt (z : Z)
| JFloat (bits : Z)
| JStr (s : string)
| JArr (items : list jval)
| JObj (fields : gmap string jval).

(** The exception classes the handlers of the code tell apart.  Every
    exception raised by a modelled operation derives from [Exception];
    [exn_msg] is [str(e)].  Signals that derive from [BaseException] only
    ([KeyboardInterrupt], [SystemExit]) are not behaviours of the modelled
    operations. *)
Inductive exn_class :=
| ExTimeoutExpired     (* subprocess.TimeoutExpired *)
| ExImportError        (* ImportError *)
| ExOther.             (* any other subclass of Exception *)

Record exn := { exn_cls : exn_class; exn_msg : string }.

(** Outcome of running a piece of Python code. *)
Inductive pyres (A : Type) :=
| Ret (a : A)
| Raise (e : exn).
Arguments Ret {A} a.
Arguments Raise {A} e.

(** [int(s)] for a [str]: the value, or a [ValueError] with its message. *)
Definition py_int (max_str_digits : nat) (s : string) : pyres Z :=
  match int_of_str max_str_digits s with
  | IntValue z => Ret z
  | IntInvalid =>
      Raise {| exn_cls := ExOther;
               exn_msg := "invalid literal for int() with base 10: "
                            +:+ str_take 200 (repr s) |}
  | IntTooLong digits =>
      Raise {| exn_cls := ExOther;
               exn_msg := "Exceeds the limit (" +:+ str_of_nat max_str_digits
                            +:+ " digits) for integer string conversion: value has "
                            +:+ str_of_nat digits
                            +:+ " digits; use sys.set_int_max_str_digits() to increase the limit" |}
  end.

(** The externally visible actions of the worker, in program order. *)
Inductive effect :=
| Publish (topic : string) (data : gmap string jval) (* client.publish(topic, json.dumps(data)) *)
| MakeDirs (path : string)                            (* os.makedirs(path, exist_ok=True) *)
| CopyFile (src dst : string)                         (* shutil.copy2(src, dst) *)
| RemoveFile (path : string)                          (* os.remove(path) *)
| RemoveTree (path : string)                          (* shutil.rmtree(path, ignore_errors=True) *)
| RemoveDir (path : string).                          (* os.rmdir(path) *)

(** Code with exceptions that logs its effects. *)
Definition M (A : Type) : Type := pyres A * list effect.

Definition ret {A} (a : A) : M A := (Ret a, []).
Definition raise {A} (e : exn) : M A := (Raise e, []).
Definition emit (ef : effect) : M unit := (Ret tt, [ef]).

Definition bind {A B} (m : M A) (f : A -> M B) : M B :=
  match m with
  | (Ret a, l) => let '(r, l') := f a in (r, l ++ l')
  | (Raise e, l) => (Raise e, l)
  end.

(** [try: m except Exception as e: h e] *)
Definition try_except {A} (m : M A) (h : exn -> M A) : M A :=
  match m with
  | (Ret a, l) => (Ret a, l)
  | (Raise e, l) => let '(r, l') := h e in (r, l ++ l')
  end.

(** [try: m finally: c], for a [c] that handles its own exceptions. *)
Definition try_finally {A} (m : M A) (c : M unit) : M A :=
  (fst m, snd m ++ snd c).

Declare Scope py_scope.
Delimit Scope py_scope with py.
Notation "x <- m ;; k" := (bind m (fun x => k))
  (at level 100, m at next level, right associativity) : py_scope.
Notation "m ;; k" := (bind m (fun _ => k))
  (at level 100, right associativity) : py_scope.
Open Scope py_scope.

(* ===================================================================== *)
(** * mqtt_client.py: the Progress Channel                               *)
(* ===================================================================== *)

Module Mqtt.

(** The publisher's view of the broker connection. *)
Record link := {
  connected : bool;            (* self.connected *)
  accepts : string -> bool;    (* client.publish(topic, ...) returns without raising *)
  now : string                 (* datetime.now(timezone.utc).isoformat() *)
}.

(** [self.broker_url.replace("mqtt://", "").split(":")[0]] *)
Definition broker_host_raw (broker_url : string) : string :=
  default "" (head (split_on ":" (replace "mqtt://" "" broker_url))).

(** [int(self.broker_url.split(":")[-1]) if ":" in self.broker_url else 1883] *)
Definition broker_port (max_str_digits : nat) (broker_url : string) : pyres Z :=
  if has_char ":" broker_url
  then py_int max_str_digits (default "" (last (split_on ":" broker_url)))
  else Ret 1883%Z.

(** [MQTTProgressManager.__init__], called without argument: the broker
    URL is [config.MQTT_BROKER].  The port is parsed first, then the
    client object is created; neither is guarded, so the [ValueError] of
    [int] and an exception of [mqtt.Client()] leave the constructor.  The
    detection of the host address catches its own exceptions.  [lk] is
    how the connection of the new manager behaves. *)
Definition MQTTProgressManager_init (max_str_digits : nat) (MQTT_BROKER : string)
    (new_client_raises : option exn) (lk : link) : M link :=
  match broker_port max_str_digits MQTT_BROKER with
  | Raise e => raise e
  | Ret _ =>
      match new_client_raises with
      | Some e => raise e
      | None => ret lk
      end
  end.

(** Truth value of an optional [str] argument ([if error:]). *)
Definition truthy (error : option string) : bool :=
  match error with
  | Some s => negb (String.eqb s "")
  | None => false
  end.

Definition with_error (error : option string) (data : gmap string jval)
  : gmap string jval :=
  match error with
  | Some s => if truthy error then <["error" := JStr s]> data else data
  | None => data
  end.

(** The dict [publish_progress] serialises. *)
Definition progress_data_of (lk : link) (user_id : string) (progress : Z)
    (status message : string) (error : option string) : gmap string jval :=
  with_error error
    (<["user_id" := JStr user_id]>
     (<["progress" := JInt progress]>
      (<["status" := JStr status]>
       (<["message" := JStr message]>
        (<["timestamp" := JStr (now lk)]> ∅))))).

(** The dict [publish_status] serialises. *)
Definition status_data_of (lk : link) (user_id : string)
    (status message : string) (error : option string) : gmap string jval :=
  with_error error
    (<["user_id" := JStr user_id]>
     (<["status" := JStr status]>
      (<["message" := JStr message]>
       (<["timestamp" := JStr (now lk)]> ∅)))).

(** [MQTTProgressManager.publish_progress]: a no-op when disconnected; an
    exception of [client.publish] is caught and only printed. *)
Definition publish_progress (lk : link) (user_id : string) (progress : Z)
    (status message : string) (error : option string) : M unit :=
  if negb (connected lk) then ret tt
  else
    let topic := "freecad/progress/" +:+ user_id in
    let data := progress_data_of lk user_id progress status message error in
    if accepts lk topic then emit (Publish topic data) else ret tt.

(** [MQTTProgressManager.publish_status] *)
Definition publish_status (lk : link) (user_id : string)
    (status message : string) (error : option string) : M unit :=
  if negb (connected lk) then ret tt
  else
    let topic := "freecad/status/" +:+ user_id in
    let data := status_data_of lk user_id status message error in
    if accepts lk topic then emit (Publish topic data) else ret tt.

(** One entry of [self.progress_data]. *)
Record progress_record := {
  pr_status : jval;
  pr_progress : jval;
  pr_message : jval;
  pr_updated_at : jval;
  pr_error : jval
}.

Definition fresh_record : progress_record :=
  {| pr_status := JStr "unknown"; pr_progress := JInt 0;
     pr_message := JStr ""; pr_updated_at := JNull; pr_error := JNull |}.

Definition set_progress (v : jval) (r : progress_record) :=
  {| pr_status := pr_status r; pr_progress := v; pr_message := pr_message r;
     pr_updated_at := pr_updated_at r; pr_error := pr_error r |}.
Definition set_status (v : jval) (r : progress_record) :=
  {| pr_status := v; pr_progress := pr_progress r; pr_message := pr_message r;
     pr_updated_at := pr_updated_at r; pr_error := pr_error r |}.
Definition set_message (v : jval) (r : progress_record) :=
  {| pr_status := pr_status r; pr_progress := pr_progress r; pr_message := v;
     pr_updated_at := pr_updated_at r; pr_error := pr_error r |}.
Definition set_error (v : jval) (r : progress_record) :=
  {| pr_status := pr_status r; pr_progress := pr_progress r; pr_message := pr_message r;
     pr_updated_at := pr_updated_at r; pr_error := v |}.
Definition set_updated_at (v : jval) (r : progress_record) :=
  {| pr_status := pr_status r; pr_progress := pr_progress r; pr_message := pr_message r;
     pr_updated_at := v; pr_error := pr_error r |}.

(** [if key in message_data: record[key] = message_data[key]] *)
Definition merge_key (key : string) (set : jval -> progress_record -> progress_record)
    (message_data : gmap string jval) (r : progress_record) : progress_record :=
  match message_data !! key with
  | Some v => set v r
  | None => r
  end.

(** [key in message_data] for a decoded value that is no dict: a
    substring test on a [str], a membership test on a [list]; [None] when
    the test raises [TypeError] (a number, a bool or [None]). *)
Definition contains_key (key : string) (message_data : jval) : option bool :=
  match message_data with
  | JStr s => Some (py_in key s)
  | JArr items =>
      Some (existsb (fun v => match v with
                              | JStr s => String.eqb s key
                              | _ => false
                              end) items)
  | _ => None
  end.

(** The four [if key in message_data: ... = message_data[key]] statements
    on a value that is no dict run to their end only when every test is
    false: a test that holds is followed by [message_data[key]], which
    raises [TypeError] on a [str] and on a [list]. *)
Definition passes_unread (message_data : jval) : bool :=
  forallb (fun key => match contains_key key message_data with
                      | Some false => true
                      | _ => false
                      end)
          ["progress"; "status"; "message"; "error"].

(** [MQTTProgressManager._on_message].  [received_at] is the receipt time;
    [payload] is [None] when decoding the payload or [json.loads] raises
    (the handler catches it and changes nothing), otherwise the decoded
    JSON value.  An event is a JSON object; for any other value the record
    of the owner is created if absent, and an exception of the statements
    that follow is caught by the handler before the record is stamped. *)
Definition _on_message (received_at : string) (topic : string)
    (payload : option jval)
    (progress_data : gmap string progress_record)
  : gmap string progress_record :=
  let topic_parts := split_on "/" topic in
  if (3 <=? length topic_parts)%nat then
    let user_id := default "" (last topic_parts) in
    match payload with
    | None => progress_data
    | Some (JObj message_data) =>
        let r0 := default fresh_record (progress_data !! user_id) in
        let r1 := merge_key "progress" set_progress message_data r0 in
        let r2 := merge_key "status" set_status message_data r1 in
        let r3 := merge_key "message" set_message message_data r2 in
        let r4 := merge_key "error" set_error message_data r3 in
        <[user_id := set_updated_at (JStr received_at) r4]> progress_data
    | Some message_data =>
        let r0 := default fresh_record (progress_data !! user_id) in
        if passes_unread message_data
        then <[user_id := set_updated_at (JStr received_at) r0]> progress_data
        else <[user_id := r0]> progress_data
    end
  else progress_data.

(** [MQTTProgressManager.get_progress] *)
Definition get_progress (progress_data : gmap string progress_record)
    (user_id : string) : option progress_record :=
  progress_data !! user_id.

(** The subscriber receiving, in order, everything a worker published. *)
Definition deliver (received_at : string) (log : list effect)
    (progress_data : gmap string progress_record)
  : gmap string progress_record :=
  fold_left
    (fun pd ef =>
       match ef with
       | Publish topic data => _on_message received_at topic (Some (JObj data)) pd
       | _ => pd
       end)
    log progress_data.

End Mqtt.

(* ===================================================================== *)
(** * worker.py: the Job Executor                                        *)
(* ===================================================================== *)

Module Worker.
Import Mqtt.

(** An Artifact Descriptor: [{"type": .., "path": .., "filename": ..}]. *)
Record descriptor := {
  d_type : string;
  d_path : string;
  d_filename : string
}.

(** The dict a converter returns: "status", "pdf_path" / "json_path",
    "filename", "message", "error", and the diagnostic entries
    ("stdout", "stderr", "exception", "traceback") of a failure. *)
Record conv_result := {
  cr_status : string;
  cr_path : option string;
  cr_filename : option string;
  cr_message : option string;
  cr_error : option string;
  cr_diag : list (string * string)
}.

Definition conv_failed (error : string) (diag : list (string * string)) : conv_result :=
  {| cr_status := "failed"; cr_path := None; cr_filename := None;
     cr_message := None; cr_error := Some error; cr_diag := diag |}.

Definition conv_success (path filename message : string) : conv_result :=
  {| cr_status := "success"; cr_path := Some path; cr_filename := Some filename;
     cr_message := Some message; cr_error := None; cr_diag := [] |}.

(** The two shapes of the "details" entry of a failure. *)
Inductive details :=
| DiagDetails (error_hint : string) (stdout_tail stderr_tail : list string)
| JsonDetails (error : string) (result : conv_result) (step_file : string).

(** The dict [execute_freecad_script] returns; an absent key is [None]. *)
Record job_result := {
  jr_status : string;
  jr_files : option (list descriptor);
  jr_error : option string;
  jr_details : option details
}.

(** What the external CAD process does once launched. *)
Inductive process_behaviour :=
| PopenRaises (e : exn)                          (* Popen / communicate raised *)
| ProcTimeout                                    (* communicate(timeout=3600) timed out *)
| ProcExit (returncode : Z) (stdout stderr : string).

(** What happens inside the [try] of [generate_pdf_from_step]. *)
Inductive pdf_behaviour :=
| PdfRaises (e : exn)            (* the import, mkdir, the generator or copy2 raised *)
| PdfGenerated (success : bool) (pdf_path : option string) (message : string).

(** What happens inside the [try] of [generate_json_from_step]. *)
Inductive json_behaviour :=
| JsonRaises (e : exn)           (* writing the script or subprocess.run raised *)
| JsonRan (returncode : Z) (stdout stderr : string) (dest_exists : bool).

(** The world one invocation of the worker runs in. *)
Record env := {
  STORAGE_PATH : string;
  mqtt : link;                                    (* get_mqtt_manager() *)
  uuid4 : string;                                 (* str(uuid.uuid4()) *)
  makedirs_raises : string -> option exn;         (* os.makedirs *)
  cad_process : process_behaviour;
  heartbeat_stop_at : nat;       (* seconds from thread start to heartbeat_stop.set() *)
  walk_user_dir : list (string * string);         (* os.walk(user_output_dir): (root, file) *)
  cad_output_exists : bool;                       (* os.path.exists("/app/cad_outputs_generated") *)
  walk_cad_output : list (string * string);       (* os.walk(cad_output_dir): (root, file) *)
  copy2_raises : string -> string -> option exn;  (* shutil.copy2 *)
  remove_raises : string -> option exn;           (* os.remove *)
  rmdir_raises : string -> option exn;            (* os.rmdir *)
  pdf_converter : string -> pdf_behaviour;
  json_converter : string -> json_behaviour;
  str_details : details -> string;                (* str(details) *)
  json_dumps : details -> string;                 (* json.dumps(details_payload) *)
  format_exc : exn -> string;                     (* traceback.format_exc() *)
  path_exists : string -> bool;                   (* os.path.exists, at cleanup time *)
  listdir_empty : string -> bool;                 (* not os.listdir(path), at cleanup time *)
  MQTT_BROKER : string;                           (* config.MQTT_BROKER *)
  manager_built : bool;                           (* _mqtt_manager is not None, at the call *)
  new_client_raises : option exn;                 (* mqtt.Client() *)
  int_max_str_digits : nat                        (* sys.get_int_max_str_digits(); 0: no limit *)
}.

(** ** get_mqtt_manager *)

(** [get_mqtt_manager()] of mqtt_client.py, as the worker process calls
    it: the singleton when it was built before, otherwise a new manager,
    whose constructor may raise ([start()] catches its own exceptions).
    The manager returned is [mqtt E]. *)
Definition get_mqtt_manager (E : env) : M link :=
  if manager_built E then ret (mqtt E)
  else MQTTProgressManager_init (int_max_str_digits E) (MQTT_BROKER E)
                                (new_client_raises E) (mqtt E).

(** ** Library calls that may raise *)

Definition os_makedirs (E : env) (path : string) : M unit :=
  match makedirs_raises E path with
  | Some e => raise e
  | None => emit (MakeDirs path)
  end.

Definition shutil_copy2 (E : env) (src dst : string) : M unit :=
  match copy2_raises E src dst with
  | Some e => raise e
  | None => emit (CopyFile src dst)
  end.

Definition os_remove (E : env) (path : string) : M unit :=
  match remove_raises E path with
  | Some e => raise e
  | None => emit (RemoveFile path)
  end.

Definition os_rmdir (E : env) (path : string) : M unit :=
  match rmdir_raises E path with
  | Some e => raise e
  | None => emit (RemoveDir path)
  end.

(** ** generate_pdf_from_step *)

Definition generate_pdf_from_step (E : env) (step_file_path user_id : string)
  : conv_result :=
  match pdf_converter E step_file_path with
  | PdfRaises e =>
      match exn_cls e with
      | ExImportError =>
          conv_failed "PDF generation not available - technical_drawing_generator not found" []
      | _ => conv_failed ("PDF generation failed: " +:+ exn_msg e) []
      end
  | PdfGenerated success pdf_path message =>
      let base_filename := path_stem step_file_path +:+ "_" +:+ user_id in
      if success && truthy pdf_path then
        let pdf_dest := path_div (STORAGE_PATH E) (base_filename +:+ ".pdf") in
        conv_success (path_str pdf_dest) (path_name pdf_dest) message
      else conv_failed message []
  end.

(** ** generate_json_from_step *)

Definition generate_json_from_step (E : env) (step_file_path user_id : string)
  : conv_result :=
  let base_filename := path_stem step_file_path +:+ "_" +:+ user_id in
  let json_dest := path_div (STORAGE_PATH E) (base_filename +:+ ".json") in
  match json_converter E step_file_path with
  | JsonRaises e =>
      match exn_cls e with
      | ExImportError =>
          conv_failed "JSON generation not available - step_converter not found" []
      | ExTimeoutExpired =>
          conv_failed
            "JSON generation timed out after 1 hour. This may happen with very large/complex STEP files."
            [("exception", exn_msg e)]
      | ExOther =>
          conv_failed ("JSON generation failed: " +:+ exn_msg e)
                      [("traceback", format_exc E e)]
      end
  | JsonRan returncode stdout stderr dest_exists =>
      if negb (returncode =? 0)%Z then
        let error_msg :=
          "FreeCAD command failed with return code " +:+ str_of_Z returncode +:+
          (if String.eqb stderr "" then "" else ": " +:+ str_take 500 stderr) in
        conv_failed error_msg [("stdout", stdout); ("stderr", stderr)]
      else if dest_exists then
        conv_success (path_str json_dest) (path_name json_dest)
                     "JSON conversion completed successfully"
      else
        conv_failed ("JSON file was not created at " +:+ path_str json_dest)
                    [("stdout", stdout); ("stderr", stderr)]
  end.

(** ** _extract_error_hint *)

Definition _extract_error_hint (stdout_text stderr_text : string) : string :=
  let text := lower (stdout_text +:+ nl +:+ stderr_text) in
  if py_in "modulenotfounderror" text || py_in "no module named" text then
    "ImportError: missing module. Verify FreeCadUtil and workbench imports, or sys.path."
  else if py_in "attributeerror" text && py_in "maketub" text then
    "AttributeError: Part.makeTub missing. Ensure FreeCadUtil monkey patch is loaded."
  else if py_in "permission denied" text then
    "Permission issue writing outputs. Verify container paths and permissions."
  else if py_in "traceback" text && py_in "export" text && py_in ".step" text then
    "STEP export failed. Ensure shapes are valid solids and export path exists."
  else if py_in "wkhtmltopdf" text && py_in "not found" text then
    "wkhtmltopdf missing. PDF generation may fail; check worker image deps."
  else if py_in "precision" text && py_in "approximation" text then
    "FreeCAD Precision API mismatch. Ensure FreeCAD 0.21+/1.0 compatibility fixes are applied."
  else "See stdout_tail/stderr_tail for details.".

(** The diagnostics attached to a process failure and to a run without
    artifacts: the last 50 lines of each stream and the hint. *)
Definition diagnostics (stdout stderr : string) : details :=
  let stdout_tail := last_n 50 (splitlines stdout) in
  let stderr_tail := last_n 50 (splitlines stderr) in
  let error_hint := _extract_error_hint (join nl stdout_tail) (join nl stderr_tail) in
  DiagDetails error_hint stdout_tail stderr_tail.

(** ** heartbeat_worker *)

(** One call of [publish_progress] by the heartbeat thread, with the
    time, in seconds since the thread started, at which it is made. *)
Record heartbeat_publish := {
  hb_time : nat;
  hb_progress : Z;
  hb_status : string;
  hb_message : string
}.

(** The loop of [heartbeat_worker]: [stop_at] is the time at which
    [heartbeat_stop] is set, [t] the current time, [value] the content of
    [heartbeat_progress["value"]]. *)
Fixpoint heartbeat_loop (fuel stop_at t : nat) (value : Z) : list heartbeat_publish :=
  match fuel with
  | O => []
  | S fuel' =>
      if (stop_at <=? t)%nat then []              (* while not heartbeat_stop.is_set() *)
      else
        let value' := Z.min (value + 2) 35 in
        {| hb_time := t; hb_progress := value'; hb_status := "running";
           hb_message := "FreeCAD script is running... (progress: "
                           +:+ str_of_Z value' +:+ "%)" |}
        :: (if (stop_at <=? t + 5)%nat then []    (* heartbeat_stop.wait(timeout=5): break *)
            else heartbeat_loop fuel' stop_at (t + 5) value')
  end.

Definition heartbeat_worker (stop_at : nat) : list heartbeat_publish :=
  heartbeat_loop (S stop_at) stop_at 0 25.

Fixpoint publish_heartbeats (E : env) (user_id : string)
    (hbs : list heartbeat_publish) : M unit :=
  match hbs with
  | [] => ret tt
  | hb :: rest =>
      publish_progress (mqtt E) user_id (hb_progress hb) (hb_status hb) (hb_message hb) None ;;
      publish_heartbeats E user_id rest
  end.

(** ** execute_freecad_script *)

Definition failed_result (error : string) (d : option details) : job_result :=
  {| jr_status := "failed"; jr_files := None; jr_error := Some error; jr_details := d |}.

Definition success_result (files : list descriptor) : job_result :=
  {| jr_status := "success"; jr_files := Some files; jr_error := None; jr_details := None |}.

(** The two [os.walk] loops that promote primary artifacts.  The loop
    over the fallback directory ([cleanup_original = true]) also removes
    each consumed original, ignoring a failure to do so. *)
Fixpoint promote (E : env) (user_id : string) (cleanup_original : bool)
    (entries : list (string * string)) (generated_files : list descriptor)
  : M (list descriptor) :=
  match entries with
  | [] => ret generated_files
  | (root, file) :: rest =>
      if endswith ".step" file || endswith ".obj" file then
        let file_path := os_path_join root file in
        let new_filename :=
          fst (splitext file) +:+ "_" +:+ user_id +:+ snd (splitext file) in
        let new_path := os_path_join (STORAGE_PATH E) new_filename in
        shutil_copy2 E file_path new_path ;;
        let file_type := if endswith ".step" file then "step" else "obj" in
        let generated_files' :=
          generated_files ++
            [{| d_type := file_type; d_path := new_path; d_filename := new_filename |}] in
        (if cleanup_original
         then try_except (os_remove E file_path) (fun _ => ret tt)
         else ret tt) ;;
        promote E user_id cleanup_original rest generated_files'
      else promote E user_id cleanup_original rest generated_files
  end.

(** The loop over [enumerate(generated_files)] that derives the PDF and
    the JSON of every STEP artifact.  [inl r] is the [return r] of the
    JSON-failure branch; [inr (pdf_files, json_files)] is the normal end
    of the loop. *)
Fixpoint derive (E : env) (user_id : string) (total : nat) (i : nat)
    (files : list descriptor) (pdf_files json_files : list descriptor)
  : M (job_result + list descriptor * list descriptor) :=
  match files with
  | [] => ret (inr (pdf_files, json_files))
  | file_info :: rest =>
      if String.eqb (d_type file_info) "step" then
        let progress := (70 + (Z.of_nat (i + 1) * 20) / Z.of_nat total)%Z in
        publish_progress (mqtt E) user_id progress "running"
          ("Processing file " +:+ str_of_nat (i + 1) +:+ "/" +:+ str_of_nat total
             +:+ ": " +:+ d_filename file_info) None ;;
        let pdf_result := generate_pdf_from_step E (d_path file_info) user_id in
        let pdf_files' :=
          if String.eqb (cr_status pdf_result) "success"
          then pdf_files ++
                 [{| d_type := "pdf"; d_path := default "" (cr_path pdf_result);
                     d_filename := default "" (cr_filename pdf_result) |}]
          else pdf_files in
        let json_result := generate_json_from_step E (d_path file_info) user_id in
        if String.eqb (cr_status json_result) "success" then
          derive E user_id total (i + 1) rest pdf_files'
            (json_files ++
               [{| d_type := "json"; d_path := default "" (cr_path json_result);
                   d_filename := default "" (cr_filename json_result) |}])
        else
          let error_msg :=
            default "Unknown error during JSON generation" (cr_error json_result) in
          let details_payload := JsonDetails error_msg json_result (d_path file_info) in
          publish_status (mqtt E) user_id "failed" error_msg
            (Some (json_dumps E details_payload)) ;;
          publish_progress (mqtt E) user_id 0 "failed" error_msg
            (Some (json_dumps E details_payload)) ;;
          ret (inl (failed_result error_msg (Some details_payload)))
      else derive E user_id total (i + 1) rest pdf_files json_files
  end.

(** The search for primary artifacts: the working directory first, and
    the shared fallback directory when that yields nothing. *)
Definition locate_artifacts (E : env) (user_id : string) : M (list descriptor) :=
  found <- promote E user_id false (walk_user_dir E) [] ;;
  match found with
  | [] =>
      publish_progress (mqtt E) user_id 60 "running"
        "Searching in cad_outputs_generated directory..." None ;;
      if cad_output_exists E
      then promote E user_id true (walk_cad_output E) found
      else ret found
  | _ :: _ => ret found
  end.

(** The body of the outer [try] of [execute_freecad_script].  The
    heartbeat thread runs from its start until the stop event is set, which
    happens as soon as the wait for the process ends; its publishes are
    logged at that place.  The inner [finally] (set the stop event, join
    the thread) has no effect of its own. *)
Definition execute_body (E : env) (script_path user_id : string) : M job_result :=
  publish_status (mqtt E) user_id "started" "Starting FreeCAD script execution" None ;;
  publish_progress (mqtt E) user_id 0 "started" "Initializing..." None ;;
  let user_output_dir := os_path_join (STORAGE_PATH E) ("user_" +:+ user_id) in
  os_makedirs E user_output_dir ;;
  publish_progress (mqtt E) user_id 10 "running" "Setting up output directory..." None ;;
  publish_progress (mqtt E) user_id 20 "running" "Executing FreeCAD script..." None ;;
  (* the heartbeat thread publishes while the process runs *)
  publish_heartbeats E user_id (heartbeat_worker (heartbeat_stop_at E)) ;;
  match cad_process E with
  | PopenRaises e => raise e
  | ProcTimeout =>
      let error_msg := "FreeCAD command timed out after 1 hour" in
      publish_status (mqtt E) user_id "failed" error_msg None ;;
      publish_progress (mqtt E) user_id 0 "failed" error_msg None ;;
      ret (failed_result error_msg None)
  | ProcExit returncode stdout stderr =>
      if negb (returncode =? 0)%Z then
        let error_msg :=
          "FreeCAD command failed with exit code " +:+ str_of_Z returncode in
        let details := diagnostics stdout stderr in
        publish_status (mqtt E) user_id "failed" error_msg (Some (str_details E details)) ;;
        publish_progress (mqtt E) user_id 0 "failed" error_msg (Some (str_details E details)) ;;
        ret (failed_result error_msg (Some details))
      else
        publish_progress (mqtt E) user_id 40 "running"
          "FreeCAD script executed successfully, searching for generated files..." None ;;
        publish_progress (mqtt E) user_id 50 "running"
          "Searching for generated files..." None ;;
        generated_files <- locate_artifacts E user_id ;;
        emit (RemoveTree user_output_dir) ;;
        match generated_files with
        | [] =>
            let error_msg := "No STEP or OBJ files were generated" in
            let details := diagnostics stdout stderr in
            publish_status (mqtt E) user_id "failed" error_msg (Some (str_details E details)) ;;
            publish_progress (mqtt E) user_id 0 "failed" error_msg (Some (str_details E details)) ;;
            ret (failed_result error_msg (Some details))
        | _ :: _ =>
            let total := length generated_files in
            publish_progress (mqtt E) user_id 70 "running"
              ("Found " +:+ str_of_nat total +:+ " files, generating PDF and JSON...") None ;;
            derived <- derive E user_id total 0 generated_files [] [] ;;
            match derived with
            | inl failure => ret failure
            | inr (pdf_files, json_files) =>
                let all_files := generated_files ++ pdf_files ++ json_files in
                publish_progress (mqtt E) user_id 100 "finished"
                  ("Successfully generated " +:+ str_of_nat (length all_files) +:+ " files") None ;;
                publish_status (mqtt E) user_id "finished"
                  ("Job completed successfully with " +:+ str_of_nat (length all_files)
                     +:+ " files") None ;;
                ret (success_result all_files)
            end
        end
  end.

(** The two [except] clauses of the outer [try]. *)
Definition execute_handler (E : env) (user_id : string) (e : exn) : M job_result :=
  let error_msg :=
    match exn_cls e with
    | ExTimeoutExpired => "FreeCAD command timed out after 5 minutes"
    | _ => "Unexpected error: " +:+ exn_msg e
    end in
  publish_status (mqtt E) user_id "failed" error_msg None ;;
  publish_progress (mqtt E) user_id 0 "failed" error_msg None ;;
  ret (failed_result error_msg None).

(** The [finally] clause: remove the script and its parent directory if
    that is now empty; a failure is caught and only printed. *)
Definition cleanup_script (E : env) (script_path : string) : M unit :=
  try_except
    (if path_exists E script_path then
       os_remove E script_path ;;
       let parent_dir := os_path_dirname script_path in
       if path_exists E parent_dir && listdir_empty E parent_dir
       then os_rmdir E parent_dir
       else ret tt
     else ret tt)
    (fun _ => ret tt).

(** The outer [try] statement of [execute_freecad_script], with its two
    [except] clauses and its [finally] clause. *)
Definition execute_try (E : env) (script_path : string)
    (user_id : option string) : M job_result :=
  let user_id := default (uuid4 E) user_id in
  try_finally
    (try_except (execute_body E script_path user_id) (execute_handler E user_id))
    (cleanup_script E script_path).

(** [execute_freecad_script]: the manager is obtained first, outside the
    [try], so an exception of [get_mqtt_manager()] leaves the function;
    the manager it returns is [mqtt E], which the [try] statement uses. *)
Definition execute_freecad_script (E : env) (script_path : string)
    (user_id : option string) : M job_result :=
  mqtt_manager <- get_mqtt_manager E ;;
  execute_try E script_path user_id.

(** ** The file system after a run *)

(** [q] is [p] or lies below it. *)
Definition under (p q : string) : bool :=
  String.eqb q p || startswith (p +:+ "/") q.

(** The set of existing paths after one effect. *)
Definition apply_effect (fs : gset string) (ef : effect) : gset string :=
  match ef with
  | Publish _ _ => fs
  | MakeDirs p => {[p]} ∪ fs
  | CopyFile _ dst => {[dst]} ∪ fs
  | RemoveFile p => fs ∖ {[p]}
  | RemoveTree p => filter (fun q => under p q = false) fs
  | RemoveDir p => fs ∖ {[p]}
  end.

Definition apply_effects (log : list effect) (fs : gset string) : gset string :=
  fold_left apply_effect log fs.

End Worker.

(* ===================================================================== *)
(** * app.py: status, result and download handlers                       *)
(* ===================================================================== *)

Module App.
Import Mqtt.

(** A Job Record as the handlers read it. *)
Record Job := {
  j_id : string;                               (* job.id *)
  j_meta : gmap string string;                 (* job.meta *)
  j_status : string;                           (* job.get_status() *)
  j_result : option Worker.job_result;         (* job.result *)
  j_ended_at : option string                   (* job.ended_at, in UTC ISO format *)
}.

(** The RQ queue and its registries. *)
Record queue := {
  finished_job_ids : list string;   (* queue.finished_job_registry.get_job_ids() *)
  started_job_ids : list string;    (* queue.started_job_registry.get_job_ids() *)
  queued_job_ids : list string;     (* queue.get_job_ids() *)
  fetch : string -> option Job      (* Job.fetch(job_id, ...); None when it raises *)
}.

(** The state the API process handles a request in. *)
Record env := {
  progress_data : gmap string progress_record; (* mqtt_manager.progress_data *)
  mqtt_connected : bool;                       (* mqtt_manager.connected *)
  jobs : queue;
  iso_now : string;                            (* iso_now() *)
  STORAGE_PATH : string;                       (* config.STORAGE_PATH *)
  base_url : string;                           (* os.getenv('API_BASE_URL', ...) *)
  path_exists : string -> bool;                (* os.path.exists *)
  walk_outputs : list (string * list string);  (* os.walk("/app/outputs"): (root, files) *)
  makedirs_raises : string -> option exn;      (* os.makedirs *)
  copy2_raises : string -> string -> option exn; (* shutil.copy2 *)
  str_http_error : nat -> string -> string;    (* str(e) of the exception api.abort raises *)
  send_file_raises : string -> option exn      (* send_file(path, ...): a directory, an
                                                  unreadable file *)
}.

(** How a piece of a handler ends: it returns a body with a status code,
    an [HTTPException] leaves it and the framework answers with its code,
    or another exception leaves it, which the framework answers with
    status 500 when no clause of the handler catches it. *)
Inductive outcome (A : Type) :=
| Returned (code : nat) (body : A)
| Aborted (code : nat) (message : string)
| Raised (e : exn).
Arguments Returned {A} code body.
Arguments Aborted {A} code message.
Arguments Raised {A} e.

(** [api.abort(code, message)] raises werkzeug's [HTTPException], which
    is a subclass of [Exception]. *)
Definition api_abort {A} (code : nat) (message : string) : outcome A :=
  Aborted code message.

(** [try: body except Exception as e: api.abort(code, f"{prefix}{str(e)}")]:
    the clause also catches the exception of an [api.abort] in [body]. *)
Definition except_abort {A} (E : env) (body : outcome A) (code : nat)
    (prefix : string) : outcome A :=
  match body with
  | Returned c b => Returned c b
  | Aborted c m => api_abort code (prefix +:+ str_http_error E c m)
  | Raised e => api_abort code (prefix +:+ exn_msg e)
  end.

Definition status_code {A} (o : outcome A) : nat :=
  match o with
  | Returned c _ => c
  | Aborted c _ => c
  | Raised _ => 500
  end.

(** [job.meta and job.meta.get("user_id") == user_id] *)
Definition owned_by (user_id : string) (job : Job) : bool :=
  bool_decide (j_meta job !! "user_id" = Some user_id).

Fixpoint scan_registry (Q : queue) (user_id : string) (job_ids : list string)
  : option Job :=
  match job_ids with
  | [] => None
  | job_id :: rest =>
      match fetch Q job_id with
      | None => scan_registry Q user_id rest          (* except Exception: continue *)
      | Some job =>
          if owned_by user_id job then Some job
          else scan_registry Q user_id rest
      end
  end.

Fixpoint scan_registries (Q : queue) (user_id : string)
    (registries : list (list string)) : option Job :=
  match registries with
  | [] => None
  | job_ids :: rest =>
      match scan_registry Q user_id job_ids with
      | Some job => Some job
      | None => scan_registries Q user_id rest
      end
  end.

(** [_find_job_for_user] of [JobStatus.get] *)
Definition _find_job_for_user (Q : queue) (user_id : string) : option Job :=
  scan_registries Q user_id
    [finished_job_ids Q; started_job_ids Q; queued_job_ids Q].

(** The dict [JobStatus.get] returns. *)
Record status_body := {
  sb_user_id : string;
  sb_job_id : option string;
  sb_status : jval;
  sb_progress : jval;
  sb_message : jval;
  sb_error : jval;
  sb_updated_at : jval;
  sb_data_source : string;
  sb_mqtt_connected : bool
}.

(** [JobStatus.get] *)
Definition JobStatus_get (E : env) (user_id : string) : outcome status_body :=
  except_abort E
    (match get_progress (progress_data E) user_id with
     | Some mqtt_progress =>
         let job_id := j_id <$> _find_job_for_user (jobs E) user_id in
         Returned 200
           {| sb_user_id := user_id;
              sb_job_id := job_id;
              sb_status := pr_status mqtt_progress;
              sb_progress := pr_progress mqtt_progress;
              sb_message := pr_message mqtt_progress;
              sb_error := pr_error mqtt_progress;
              sb_updated_at := pr_updated_at mqtt_progress;
              sb_data_source := "mqtt";
              sb_mqtt_connected := mqtt_connected E |}
     | None =>
         match _find_job_for_user (jobs E) user_id with
         | Some job =>
             let status := j_status job in
             let updated_at := default (iso_now E) (j_ended_at job) in
             let progress :=
               if String.eqb status "started" then 50%Z
               else if String.eqb status "finished" then 100%Z
               else 0%Z in
             Returned 200
               {| sb_user_id := user_id;
                  sb_job_id := Some (j_id job);
                  sb_status := JStr status;
                  sb_progress := JInt progress;
                  sb_message := JStr ("Job " +:+ status +:+ " (from Redis queue)");
                  sb_error := JNull;
                  sb_updated_at := JStr updated_at;
                  sb_data_source := "redis";
                  sb_mqtt_connected := mqtt_connected E |}
         | None =>
             api_abort 404
               "Job not found. It may still be initializing or has already expired."
         end
     end)
    404 "Job not found: ".

(** One entry of the "files" list of a result. *)
Record file_info := {
  f_type : string;
  f_path : string;
  f_filename : string;
  f_download_url : option string;
  f_local_path : option string
}.

Definition file_of_descriptor (d : Worker.descriptor) : file_info :=
  {| f_type := Worker.d_type d; f_path := Worker.d_path d;
     f_filename := Worker.d_filename d;
     f_download_url := None; f_local_path := None |}.

(** The dict [JobResult.get] returns. *)
Record result_body := {
  rb_user_id : string;
  rb_job_id : option string;
  rb_status : string;
  rb_message : option string;
  rb_files : list file_info;
  rb_output_directory : option string;
  rb_completed_at : option string
}.

Fixpoint download_links (E : env) (user_id : string)
    (files : list Worker.descriptor) : pyres (list file_info) :=
  match files with
  | [] => Ret []
  | f :: rest =>
      let src_path := Worker.d_path f in
      let filename := Worker.d_filename f in
      if negb (String.eqb src_path "") && path_exists E src_path then
        let dst_path_absolute :=
          os_path_join "/app/outputs/code/cad_outputs_generated" filename in
        let dst_path_relative :=
          os_path_join "outputs/code/cad_outputs_generated" filename in
        match copy2_raises E src_path dst_path_absolute with
        | Some e => Raise e
        | None =>
            match download_links E user_id rest with
            | Raise e => Raise e
            | Ret links =>
                Ret ({| f_type := Worker.d_type f;
                        f_path := dst_path_relative;
                        f_filename := filename;
                        f_download_url :=
                          Some (base_url E +:+ "/freecad/download/" +:+ user_id
                                  +:+ "/" +:+ filename);
                        f_local_path := Some dst_path_relative |} :: links)
            end
        end
      else download_links E user_id rest
  end.

(** [_prepare_download_files] *)
Definition _prepare_download_files (E : env) (files : list Worker.descriptor)
    (user_id : string) : pyres (list file_info) :=
  match files with
  | [] => Ret []
  | _ :: _ =>
      match makedirs_raises E "/app/outputs/code/cad_outputs_generated" with
      | Some e => Raise e
      | None => download_links E user_id files
      end
  end.

(** [_return_result] of [JobResult.get] *)
Definition _return_result (E : env) (user_id : string) (auto_download : bool)
    (job : Job) (files : list Worker.descriptor) : pyres result_body :=
  let completed_at := Some (default (iso_now E) (j_ended_at job)) in
  match auto_download, files with
  | true, _ :: _ =>
      match _prepare_download_files E files user_id with
      | Raise e => Raise e
      | Ret download_links =>
          let output_dir := "outputs/code/cad_outputs_generated" in
          Ret {| rb_user_id := user_id;
                 rb_job_id := Some (j_id job);
                 rb_status := "success";
                 rb_message := Some ("Files generated and saved to " +:+ output_dir +:+ "/");
                 rb_files := download_links;
                 rb_output_directory := Some output_dir;
                 rb_completed_at := completed_at |}
      end
  | _, _ =>
      Ret {| rb_user_id := user_id;
             rb_job_id := Some (j_id job);
             rb_status := "success";
             rb_message := None;
             rb_files := file_of_descriptor <$> files;
             rb_output_directory := None;
             rb_completed_at := completed_at |}
  end.

(** One of the three registry loops of [JobResult.get]: [Some] is the
    [return] of the loop body, [None] the end of the loop.  The bare
    [except: continue] also swallows an exception of [_return_result]. *)
Fixpoint result_loop (E : env) (user_id : string) (auto_download : bool)
    (job_ids : list string) : option (nat * result_body) :=
  match job_ids with
  | [] => None
  | job_id :: rest =>
      match fetch (jobs E) job_id with
      | None => result_loop E user_id auto_download rest
      | Some job =>
          if owned_by user_id job then
            let status := j_status job in
            if negb (String.eqb status "finished") then
              Some (202%nat,
                    {| rb_user_id := user_id;
                       rb_job_id := Some (j_id job);
                       rb_status := status;
                       rb_message := Some "Result not ready yet. Job is still running.";
                       rb_files := [];
                       rb_output_directory := None;
                       rb_completed_at := None |})
            else
              let files :=
                match j_result job with
                | Some result => default [] (Worker.jr_files result)
                | None => []
                end in
              match _return_result E user_id auto_download job files with
              | Ret body => Some (200%nat, body)
              | Raise _ => result_loop E user_id auto_download rest
              end
          else result_loop E user_id auto_download rest
      end
  end.

(** [JobResult.get] *)
Definition JobResult_get (E : env) (user_id : string) (auto_download : bool)
  : outcome result_body :=
  except_abort E
    (match result_loop E user_id auto_download (finished_job_ids (jobs E)) with
     | Some (code, body) => Returned code body
     | None =>
         match result_loop E user_id auto_download (started_job_ids (jobs E)) with
         | Some (code, body) => Returned code body
         | None =>
             match result_loop E user_id auto_download (queued_job_ids (jobs E)) with
             | Some (code, body) => Returned code body
             | None =>
                 api_abort 404
                   "Result not found. The job may still be running or the result has expired."
             end
         end
     end)
    404 "Result not available: ".

(** The file [send_file] streams. *)
Record attachment := {
  att_path : string;
  att_download_name : string;
  att_mimetype : string
}.

(** The path [DownloadFile.get] settles on after its three look-ups. *)
Definition locate_download (E : env) (filename : string) : string :=
  let output_dir :=
    os_path_join (os_path_join (os_path_join "/app" "outputs") "code")
                 "cad_outputs_generated" in
  let file_path := os_path_join output_dir filename in
  let file_path :=
    if negb (path_exists E file_path) then
      let outputs_base := "/app/outputs" in
      if path_exists E outputs_base then
        match List.find (fun '(_, files) => bool_decide (filename ∈ files))
                        (walk_outputs E) with
        | Some (root, _) => os_path_join root filename
        | None => file_path
        end
      else file_path
    else file_path in
  if negb (path_exists E file_path)
  then os_path_join (STORAGE_PATH E) filename
  else file_path.

(** [send_file(file_path, as_attachment=True, download_name=filename,
    mimetype='application/octet-stream')]: the response that streams the
    file, or the exception of opening it. *)
Definition send_file (E : env) (file_path filename : string) : outcome attachment :=
  match send_file_raises E file_path with
  | Some e => Raised e
  | None =>
      Returned 200
        {| att_path := file_path; att_download_name := filename;
           att_mimetype := "application/octet-stream" |}
  end.

(** [DownloadFile.get]: the two [api.abort] calls and [send_file] stand
    inside the [try], so the [except Exception] clause answers them all. *)
Definition DownloadFile_get (E : env) (user_id filename : string)
  : outcome attachment :=
  except_abort E
    (let file_path := locate_download E filename in
     if negb (path_exists E file_path) then
       api_abort 404 ("File not found: " +:+ filename)
     else if negb (py_in user_id filename) then
       api_abort 403 ("Access denied: File does not belong to user " +:+ user_id)
     else send_file E file_path filename)
    500 "Download failed: ".

(** What RQ records once the worker function has run: a call that
    returned is [finished] and keeps the returned dict as [job.result],
    whatever that dict says; only a raised exception makes the job
    [failed]. *)
Definition rq_completed (job_id : string) (meta : gmap string string)
    (ended_at : string) (ran : pyres Worker.job_result) : Job :=
  match ran with
  | Ret r =>
      {| j_id := job_id; j_meta := meta; j_status := "finished";
         j_result := Some r; j_ended_at := Some ended_at |}
  | Raise _ =>
      {| j_id := job_id; j_meta := meta; j_status := "failed";
         j_result := None; j_ended_at := Some ended_at |}
  end.

End App.

(* ===================================================================== *)
(** * Notions used to state the properties                               *)
(* ===================================================================== *)

Import Mqtt Worker.

(** What one [publish_progress] / [publish_status] call hands to the broker. *)
Definition progress_log (lk : link) (user_id : string) (progress : Z)
    (status message : string) (error : option string) : list effect :=
  snd (publish_progress lk user_id progress status message error).

Definition status_log (lk : link) (user_id : string)
    (status message : string) (error : option string) : list effect :=
  snd (publish_status lk user_id status message error).

(** An effect that is no message carrying an "error" key. *)
Definition error_free (ef : effect) : Prop :=
  match ef with
  | Publish _ data => data !! "error" = None
  | _ => True
  end.

(** An effect that is no message at all. *)
Definition silent (ef : effect) : Prop :=
  match ef with
  | Publish _ _ => False
  | _ => True
  end.

(** The returned dict has one of the two documented shapes. *)
Definition well_formed (r : job_result) : Prop :=
  (jr_status r = "success" /\ is_Some (jr_files r)) \/
  (jr_status r = "failed" /\ is_Some (jr_error r)).

(** The same world with another PDF converter. *)
Definition with_pdf_converter (E : env) (pdf : string -> pdf_behaviour) : env :=
  {| STORAGE_PATH := STORAGE_PATH E; mqtt := mqtt E; uuid4 := uuid4 E;
     makedirs_raises := makedirs_raises E; cad_process := cad_process E;
     heartbeat_stop_at := heartbeat_stop_at E; walk_user_dir := walk_user_dir E;
     cad_output_exists := cad_output_exists E; walk_cad_output := walk_cad_output E;
     copy2_raises := copy2_raises E; remove_raises := remove_raises E;
     rmdir_raises := rmdir_raises E; pdf_converter := pdf;
     json_converter := json_converter E; str_details := str_details E;
     json_dumps := json_dumps E; format_exc := format_exc E;
     path_exists := Worker.path_exists E; listdir_empty := listdir_empty E;
     MQTT_BROKER := MQTT_BROKER E; manager_built := manager_built E;
     new_client_raises := new_client_raises E;
     int_max_str_digits := int_max_str_digits E |}.


(** [get_mqtt_manager()] returns: the singleton was built before, or the
    constructor accepts the broker URL and creates its client. *)
Definition manager_available (E : env) : Prop :=
  get_mqtt_manager E = ret (mqtt E).

(** The working directory of an owner. *)
Definition user_output_dir (E : env) (user_id : string) : string :=
  os_path_join (STORAGE_PATH E) ("user_" +:+ user_id).

(** What a returned dict says, or [None] for a propagated exception. *)
Definition returned {A} (m : M A) : option A :=
  match fst m with
  | Ret a => Some a
  | Raise _ => None
  end.

(** The descriptors of a file list that are not derived PDFs. *)
Definition without_pdf (files : list descriptor) : list descriptor :=
  List.filter (fun d => negb (String.eqb (d_type d) "pdf")) files.

(** The error a failed JSON conversion is reported with. *)
Definition json_error_of (r : conv_result) : string :=
  default "Unknown error during JSON generation" (cr_error r).

(** [d] is the descriptor recorded for the discovered file [file]. *)
Definition promoted_from (E : env) (user_id : string) (file : string)
    (d : descriptor) : Prop :=
  (endswith ".step" file || endswith ".obj" file) = true /\
  d_type d = (if endswith ".step" file then "step" else "obj") /\
  d_filename d = fst (splitext file) +:+ "_" +:+ user_id +:+ snd (splitext file) /\
  d_path d = os_path_join (STORAGE_PATH E) (d_filename d).

(** [d] is the PDF descriptor derived from the STEP artifact [g]. *)
Definition pdf_of (E : env) (user_id : string) (g d : descriptor) : Prop :=
  d_type g = "step" /\
  cr_status (generate_pdf_from_step E (d_path g) user_id) = "success" /\
  d = {| d_type := "pdf";
         d_path := default "" (cr_path (generate_pdf_from_step E (d_path g) user_id));
         d_filename :=
           default "" (cr_filename (generate_pdf_from_step E (d_path g) user_id)) |}.

(** [d] is the JSON descriptor derived from the STEP artifact [g]. *)
Definition json_of (E : env) (user_id : string) (g d : descriptor) : Prop :=
  d_type g = "step" /\
  cr_status (generate_json_from_step E (d_path g) user_id) = "success" /\
  d = {| d_type := "json";
         d_path := default "" (cr_path (generate_json_from_step E (d_path g) user_id));
         d_filename :=
           default "" (cr_filename (generate_json_from_step E (d_path g) user_id)) |}.

(** A successful result of [m] is announced by the last two messages of
    its log, and no message before them carries an "error" key. *)
Definition announces (E : env) (u : string) (m : M job_result) : Prop :=
  forall r, fst m = Ret r -> jr_status r = "success" ->
  exists pre msg1 msg2,
    snd m = pre ++ progress_log (mqtt E) u 100 "finished" msg1 None
                ++ status_log (mqtt E) u "finished" msg2 None /\
    Forall error_free pre.



(* ===================================================================== *)
(** * Concrete scenarios                                                 *)
(* ===================================================================== *)

Module Scenarios.

Definition link_up : link :=
  {| connected := true; accepts := fun _ => true;
     now := "2024-05-01T10:00:00+00:00" |}.

(** Owner "u1"; the script leaves [box.step] and a text file in the
    working directory; PDF conversion succeeds. *)
Definition world (proc : process_behaviour) (json : json_behaviour) : env :=
  {| STORAGE_PATH := "/app/storage";
     mqtt := link_up;
     uuid4 := "0b0e7a52-5d0c-4c0b-9f5e-2f1d6c1f8a11";
     makedirs_raises := fun _ => None;
     cad_process := proc;
     heartbeat_stop_at := 12;
     walk_user_dir :=
       [("/app/storage/user_u1", "box.step"); ("/app/storage/user_u1", "notes.txt")];
     cad_output_exists := true;
     walk_cad_output := [];
     copy2_raises := fun _ _ => None;
     remove_raises := fun _ => None;
     rmdir_raises := fun _ => None;
     pdf_converter := fun _ => PdfGenerated true (Some "/tmp/drawing.pdf") "PDF generated";
     json_converter := fun _ => json;
     str_details := fun _ => "{'error_hint': ...}";
     json_dumps := fun _ => "{'error': ...}";
     format_exc := fun _ => "Traceback (most recent call last): ...";
     Worker.path_exists := fun _ => true;
     listdir_empty := fun _ => false;
     MQTT_BROKER := "mqtt://localhost:1883";
     manager_built := false;
     new_client_raises := None;
     int_max_str_digits := 4300 |}.

Definition script : string := "/app/storage/script_u1_box.py".

(** Scenario A: one primary artifact, every conversion succeeds. *)
Definition scenario_a : env := world (ProcExit 0 "" "") (JsonRan 0 "" "" true).

(** Scenario B: the CAD process exits with code 1. *)
Definition scenario_b : env :=
  world (ProcExit 1 "" "Traceback (most recent call last):") (JsonRan 0 "" "" true).

(** The CAD process runs into the wall-clock timeout. *)
Definition scenario_timeout : env := world ProcTimeout (JsonRan 0 "" "" true).

(** Launching the CAD process raises. *)
Definition scenario_crash : env :=
  world (PopenRaises {| exn_cls := ExOther;
                        exn_msg := "[Errno 2] No such file or directory: 'freecadcmd'" |})
        (JsonRan 0 "" "" true).

(** Scenario D: JSON conversion fails after PDF conversion succeeded. *)
Definition scenario_d : env :=
  world (ProcExit 0 "" "") (JsonRan 1 "JSON conversion failed!" "" false).

(** Scenario C: the process exits with 0 and leaves no recognised file in
    either search directory. *)
Definition scenario_c : env :=
  {| STORAGE_PATH := "/app/storage";
     mqtt := link_up;
     uuid4 := "0b0e7a52-5d0c-4c0b-9f5e-2f1d6c1f8a11";
     makedirs_raises := fun _ => None;
     cad_process := ProcExit 0 "done" "";
     heartbeat_stop_at := 7;
     walk_user_dir := [("/app/storage/user_u1", "notes.txt")];
     cad_output_exists := true;
     walk_cad_output := [("/app/cad_outputs_generated", "readme.md")];
     copy2_raises := fun _ _ => None;
     remove_raises := fun _ => None;
     rmdir_raises := fun _ => None;
     pdf_converter := fun _ => PdfGenerated true (Some "/tmp/drawing.pdf") "PDF generated";
     json_converter := fun _ => JsonRan 0 "" "" true;
     str_details := fun _ => "{'error_hint': ...}";
     json_dumps := fun _ => "{'error': ...}";
     format_exc := fun _ => "Traceback (most recent call last): ...";
     Worker.path_exists := fun _ => true;
     listdir_empty := fun _ => false;
     MQTT_BROKER := "mqtt://localhost:1883";
     manager_built := false;
     new_client_raises := None;
     int_max_str_digits := 4300 |}.

Definition link_down : link :=
  {| connected := false; accepts := fun _ => true;
     now := "2024-05-01T10:00:00+00:00" |}.

(** An owner id with a path separator; the storage root holds the
    directories the promoted names then point into. *)
Definition slash_owner : string := "a/b".


(** Owner "a/b": the working directory holds [box.step]. *)
Definition slash_world : env :=
  {| STORAGE_PATH := "/app/storage";
     mqtt := link_up;
     uuid4 := "0b0e7a52-5d0c-4c0b-9f5e-2f1d6c1f8a11";
     makedirs_raises := fun _ => None;
     cad_process := ProcExit 0 "" "";
     heartbeat_stop_at := 3;
     walk_user_dir := [("/app/storage/user_a/b", "box.step")];
     cad_output_exists := false;
     walk_cad_output := [];
     copy2_raises := fun _ _ => None;
     remove_raises := fun _ => None;
     rmdir_raises := fun _ => None;
     pdf_converter := fun _ => PdfRaises {| exn_cls := ExImportError;
                                            exn_msg := "No module named 'technical_drawing_generator'" |};
     json_converter := fun _ => JsonRan 0 "JSON conversion completed successfully!" "" true;
     str_details := fun _ => "{'error_hint': ...}";
     json_dumps := fun _ => "{'error': ...}";
     format_exc := fun _ => "Traceback (most recent call last): ...";
     Worker.path_exists := fun _ => true;
     listdir_empty := fun _ => false;
     MQTT_BROKER := "mqtt://localhost:1883";
     manager_built := false;
     new_client_raises := None;
     int_max_str_digits := 4300 |}.

Definition received_at : string := "2024-05-01T10:00:01+00:00".

Definition meta_u1 : gmap string string :=
  <["user_id" := "u1"]> (<["script_name" := "box.py"]>
    (<["created_at" := "2024-05-01T09:59:00+00:00"]> ∅)).

(** The API process with the given Job Records in the finished registry,
    no Progress Channel record and the given files on disk, each a
    readable regular file. *)
Definition api (finished : list App.Job) (on_disk : list string) : App.env :=
  {| App.progress_data := ∅;
     App.mqtt_connected := false;
     App.jobs :=
       {| App.finished_job_ids := App.j_id <$> finished;
          App.started_job_ids := [];
          App.queued_job_ids := [];
          App.fetch := fun job_id =>
            List.find (fun j => String.eqb (App.j_id j) job_id) finished |};
     App.iso_now := "2024-05-01T10:05:00+00:00";
     App.STORAGE_PATH := "/app/storage";
     App.base_url := "http://0.0.0.0:8080";
     App.path_exists := fun p => bool_decide (p ∈ on_disk);
     App.walk_outputs := [];
     App.makedirs_raises := fun _ => None;
     App.copy2_raises := fun _ _ => None;
     App.str_http_error := fun code message => pretty code +:+ ": " +:+ message;
     App.send_file_raises := fun _ => None |}.


(** The Job Record RQ holds once the worker has run in world [E]. *)
Definition job_of (E : env) : App.Job :=
  App.rq_completed "job-1" meta_u1 "2024-05-01T10:04:00+00:00"
    (fst (execute_freecad_script E script (Some "u1"))).

End Scenarios.



(* ===================================================================== *)
(** * Further notions: the channel, progress values, discovery order     *)
(* ===================================================================== *)

(** The same world, in a fresh process with another broker URL. *)
Definition with_broker (E : env) (broker_url : string) : env :=
  {| STORAGE_PATH := STORAGE_PATH E; mqtt := mqtt E; uuid4 := uuid4 E;
     makedirs_raises := makedirs_raises E; cad_process := cad_process E;
     heartbeat_stop_at := heartbeat_stop_at E; walk_user_dir := walk_user_dir E;
     cad_output_exists := cad_output_exists E; walk_cad_output := walk_cad_output E;
     copy2_raises := copy2_raises E; remove_raises := remove_raises E;
     rmdir_raises := rmdir_raises E; pdf_converter := pdf_converter E;
     json_converter := json_converter E; str_details := str_details E;
     json_dumps := json_dumps E; format_exc := format_exc E;
     path_exists := Worker.path_exists E; listdir_empty := listdir_empty E;
     MQTT_BROKER := broker_url; manager_built := false;
     new_client_raises := new_client_raises E;
     int_max_str_digits := int_max_str_digits E |}.

(** Scenario A with a broker URL that names no port. *)
Definition scenario_portless : env :=
  with_broker Scenarios.scenario_a "mqtt://broker".

(** The same world with another Progress Channel link. *)
Definition with_mqtt (E : env) (lk : link) : env :=
  {| STORAGE_PATH := STORAGE_PATH E; mqtt := lk; uuid4 := uuid4 E;
     makedirs_raises := makedirs_raises E; cad_process := cad_process E;
     heartbeat_stop_at := heartbeat_stop_at E; walk_user_dir := walk_user_dir E;
     cad_output_exists := cad_output_exists E; walk_cad_output := walk_cad_output E;
     copy2_raises := copy2_raises E; remove_raises := remove_raises E;
     rmdir_raises := rmdir_raises E; pdf_converter := pdf_converter E;
     json_converter := json_converter E; str_details := str_details E;
     json_dumps := json_dumps E; format_exc := format_exc E;
     path_exists := Worker.path_exists E; listdir_empty := listdir_empty E;
     MQTT_BROKER := MQTT_BROKER E; manager_built := manager_built E;
     new_client_raises := new_client_raises E;
     int_max_str_digits := int_max_str_digits E |}.

Definition is_publish (ef : effect) : bool :=
  match ef with
  | Publish _ _ => true
  | _ => false
  end.

(** The file-system effects of a log: everything but the messages. *)
Definition fs_effects (log : list effect) : list effect :=
  List.filter (fun ef => negb (is_publish ef)) log.

(** Two runs that return the same and act on the file system the same. *)
Definition same_outcome {A} (m m' : M A) : Prop :=
  fst m = fst m' /\ fs_effects (snd m) = fs_effects (snd m').

(** The percentage a published message carries, if it carries one. *)
Definition progress_of (ef : effect) : option Z :=
  match ef with
  | Publish _ data =>
      match data !! "progress" with
      | Some (JInt p) => Some p
      | _ => None
      end
  | _ => None
  end.

(** The percentages of a log, in the order they were published. *)
Definition progress_values (log : list effect) : list Z := omap progress_of log.

(** [lo <= x1 <= x2 <= ... <= xn <= hi] *)
Fixpoint ascending (lo : Z) (l : list Z) (hi : Z) : Prop :=
  match l with
  | [] => (lo <= hi)%Z
  | p :: r => (lo <= p)%Z /\ ascending p r hi
  end.

(** A run that, when it returns success, has published ascending
    percentages between [lo] and [hi]. *)
Definition ascends (lo hi : Z) (m : M job_result) : Prop :=
  forall r, fst m = Ret r -> jr_status r = "success" ->
    ascending lo (progress_values (snd m)) hi.

(** A message whose percentage, if any, lies between 0 and 100. *)
Definition in_range (ef : effect) : Prop :=
  match progress_of ef with
  | Some p => (0 <= p <= 100)%Z
  | None => True
  end.

(* ===================================================================== *)
(** * Facts about the string and path primitives                         *)
(* ===================================================================== *)

Section StringFacts.

Lemma app_cons (c : ascii) (a b : string) :
  String c a +:+ b = String c (a +:+ b).
Proof. reflexivity. Qed.


Lemma app_assoc_s (a b c : string) : (a +:+ b) +:+ c = a +:+ (b +:+ c).
Proof.
  induction a as [|x a IH]; [reflexivity|].
  by rewrite !app_cons, IH.
Qed.

Lemma length_app_s (a b : string) :
  String.length (a +:+ b) = String.length a + String.length b.
Proof.
  induction a as [|x a IH]; [reflexivity|].
  rewrite app_cons. simpl. by rewrite IH.
Qed.

Lemma startswith_app (n b : string) : startswith n (n +:+ b) = true.
Proof.
  induction n as [|c n IH]; [reflexivity|].
  rewrite app_cons. cbn [startswith]. by rewrite Ascii.eqb_refl, IH.
Qed.

Lemma py_in_prefix (n h : string) : startswith n h = true -> py_in n h = true.
Proof. intros H. destruct h; cbn [py_in]; rewrite H; reflexivity. Qed.

(** A string contains every one of its contiguous pieces. *)
Lemma py_in_app (a n b : string) : py_in n (a +:+ n +:+ b) = true.
Proof.
  induction a as [|c a IH].
  - change ("" +:+ n +:+ b) with (n +:+ b). apply py_in_prefix, startswith_app.
  - rewrite app_cons. cbn [py_in]. rewrite IH. apply orb_true_r.
Qed.

Lemma startswith_split (n h : string) :
  startswith n h = true -> exists b, h = n +:+ b.
Proof.
  revert h. induction n as [|c n IH]; intros h H.
  - exists h. reflexivity.
  - destruct h as [|d h]; [discriminate|]. cbn [startswith] in H.
    apply andb_true_iff in H as [Hc H]. apply Ascii.eqb_eq in Hc as ->.
    destruct (IH _ H) as [b ->]. exists b. reflexivity.
Qed.

(** [py_in] decides exactly contiguous-substring containment. *)
Lemma py_in_spec (n h : string) :
  py_in n h = true <-> exists a b, h = a +:+ n +:+ b.
Proof.
  split.
  - induction h as [|c h IH]; intros H; cbn [py_in] in H.
    + rewrite orb_false_r in H. destruct (startswith_split _ _ H) as [b Hb].
      exists "", b. exact Hb.
    + apply orb_true_iff in H as [H|H].
      * destruct (startswith_split n (String c h)) as [b Hb]; [exact H|].
        exists "", b. exact Hb.
      * destruct (IH H) as (a & b & ->). exists (String c a), b. reflexivity.
  - intros (a & b & ->). apply py_in_app.
Qed.

Lemma str_all_app (f : ascii -> bool) (a b : string) :
  str_all f (a +:+ b) = str_all f a && str_all f b.
Proof.
  induction a as [|c a IH]; [reflexivity|].
  rewrite app_cons. simpl. rewrite IH. apply andb_assoc.
Qed.

Lemma has_char_app (c : ascii) (a b : string) :
  has_char c (a +:+ b) = has_char c a || has_char c b.
Proof. unfold has_char. rewrite str_all_app. apply negb_andb. Qed.

Lemma has_char_cons (c x : ascii) (s : string) :
  has_char c (String x s) = Ascii.eqb x c || has_char c s.
Proof.
  unfold has_char. simpl. rewrite negb_andb, negb_involutive. reflexivity.
Qed.

Lemma has_char_take (c : ascii) (n : nat) (s : string) :
  has_char c s = false -> has_char c (str_take n s) = false.
Proof.
  revert s. induction n as [|n IH]; intros [|x s]; try reflexivity.
  rewrite has_char_cons. intros H. apply orb_false_iff in H as [H1 H2].
  simpl. rewrite has_char_cons, H1. simpl. by apply IH.
Qed.

Lemma split_on_no_sep (sep : ascii) (x : string) :
  has_char sep x = false -> split_on sep x = [x].
Proof.
  induction x as [|c x IH]; [reflexivity|].
  rewrite has_char_cons. intros H. apply orb_false_iff in H as [H1 H2].
  simpl. rewrite H1, (IH H2). reflexivity.
Qed.

Lemma split_on_nonempty (sep : ascii) (s : string) : split_on sep s <> [].
Proof.
  induction s as [|c s IH]; simpl; [discriminate|].
  destruct (Ascii.eqb c sep); [discriminate|].
  destruct (split_on sep s); [congruence|discriminate].
Qed.

(** Splitting at a separator whose right-hand side holds no separator. *)
Lemma split_on_app (sep : ascii) (a x : string) :
  has_char sep x = false ->
  split_on sep (a +:+ String sep x) = split_on sep a ++ [x].
Proof.
  intros Hx. induction a as [|c a IH].
  - change ("" +:+ String sep x) with (String sep x). simpl.
    rewrite Ascii.eqb_refl, (split_on_no_sep _ _ Hx). reflexivity.
  - rewrite app_cons. simpl. destruct (Ascii.eqb c sep).
    + rewrite IH. reflexivity.
    + rewrite IH. pose proof (split_on_nonempty sep a) as Hne.
      destruct (split_on sep a); [congruence|reflexivity].
Qed.

Lemma split_on_parts (sep : ascii) (s p : string) :
  In p (split_on sep s) -> has_char sep p = false.
Proof.
  revert p. induction s as [|c s IH]; simpl; intros p Hp.
  - destruct Hp as [<-|[]]. reflexivity.
  - destruct (Ascii.eqb c sep) eqn:Hc.
    + destruct Hp as [<-|Hp]; [reflexivity|]. by apply IH.
    + pose proof (split_on_nonempty sep s) as Hne.
      destruct (split_on sep s) as [|h t]; [congruence|].
      destruct Hp as [<-|Hp].
      * rewrite has_char_cons, Hc. simpl. apply IH. by left.
      * apply IH. by right.
Qed.

Lemma last_snoc_default (l : list string) (x : string) :
  default "" (last (l ++ [x])) = x.
Proof. by rewrite last_snoc. Qed.

Lemma str_take_drop (n : nat) (s : string) : str_take n s +:+ str_drop n s = s.
Proof.
  revert s. induction n as [|n IH]; intros [|c s]; try reflexivity.
  cbn [str_take str_drop]. by rewrite app_cons, IH.
Qed.

Lemma endswith_split (suf s : string) :
  endswith suf s = true -> exists a, s = a +:+ suf.
Proof.
  unfold endswith. intros H. apply andb_true_iff in H as [_ H].
  apply String.eqb_eq in H.
  exists (str_take (String.length s - String.length suf) s).
  rewrite <- H at 2. symmetry. apply str_take_drop.
Qed.

(** The last component of a joined path, for a single component [x]. *)
Lemma last_component_join (S x : string) :
  has_char "/" x = false ->
  exists parts, split_on "/" (os_path_join S x) = parts ++ [x].
Proof.
  intros Hx. unfold os_path_join.
  assert (startswith "/" x = false) as ->.
  { destruct x as [|c x]; [reflexivity|].
    rewrite has_char_cons in Hx. apply orb_false_iff in Hx as [Hc _].
    cbn [startswith]. rewrite Ascii.eqb_sym, Hc. reflexivity. }
  destruct (String.eqb S "") eqn:HS.
  - apply String.eqb_eq in HS as ->. exists []. cbn [orb app].
    change ("" +:+ x) with x. by apply split_on_no_sep.
  - cbn [orb]. destruct (endswith "/" S) eqn:Hend.
    + apply endswith_split in Hend as [a ->]. rewrite app_assoc_s.
      change ("/" +:+ x) with (String "/" x).
      exists (split_on "/" a). by apply split_on_app.
    + change (S +:+ "/" +:+ x) with (S +:+ String "/" x).
      exists (split_on "/" S). by apply split_on_app.
Qed.

(** [(Path(S) / x).name] is [x] when [x] is a single path component. *)
Lemma path_name_div (S x : string) :
  has_char "/" x = false -> x <> "" -> x <> "." ->
  path_name (path_div S x) = x.
Proof.
  intros Hx Hne Hdot. unfold path_name, path_div, path_parts.
  destruct (last_component_join S x Hx) as [parts ->].
  rewrite List.filter_app. simpl.
  apply String.eqb_neq in Hne, Hdot. rewrite Hne, Hdot. simpl.
  apply last_snoc_default.
Qed.

Lemma path_name_no_slash (p : string) : has_char "/" (path_name p) = false.
Proof.
  unfold path_name.
  destruct (last (path_parts p)) as [x|] eqn:Hl; [|reflexivity]. simpl.
  apply last_Some in Hl as [l' Hl].
  apply (split_on_parts "/" p).
  assert (In x (path_parts p)) as Hin.
  { rewrite Hl. apply in_or_app. right. by left. }
  unfold path_parts in Hin. apply List.filter_In in Hin. tauto.
Qed.

Lemma path_stem_no_slash (p : string) : has_char "/" (path_stem p) = false.
Proof.
  unfold path_stem. pose proof (path_name_no_slash p).
  destruct (_ && _); [by apply has_char_take|assumption].
Qed.

End StringFacts.

(* ===================================================================== *)
(** * Facts about the effect-logging code and the worker                 *)
(* ===================================================================== *)

Section MonadFacts.
Context {A B : Type}.

Lemma bind_ret_l (a : A) (l : list effect) (f : A -> M B) :
  bind (Ret a, l) f = (fst (f a), l ++ snd (f a)).
Proof. unfold bind. by destruct (f a). Qed.

Lemma bind_raise_l (e : exn) (l : list effect) (f : A -> M B) :
  bind (Raise e, l) f = (Raise e, l).
Proof. reflexivity. Qed.

Lemma eta_M (m : M A) : m = (fst m, snd m).
Proof. by destruct m. Qed.

Lemma fst_bind (m : M A) (f : A -> M B) :
  fst (bind m f) = match fst m with Ret a => fst (f a) | Raise e => Raise e end.
Proof. destruct m as [[a|e] l]; [by rewrite bind_ret_l|reflexivity]. Qed.

Lemma snd_bind (m : M A) (f : A -> M B) :
  snd (bind m f) = snd m ++ match fst m with Ret a => snd (f a) | Raise e => [] end.
Proof.
  destruct m as [[a|e] l]; [by rewrite bind_ret_l|]. simpl. by rewrite app_nil_r.
Qed.
End MonadFacts.

Lemma publish_progress_run lk u p s m e :
  publish_progress lk u p s m e = (Ret tt, progress_log lk u p s m e).
Proof.
  unfold progress_log, publish_progress.
  destruct (negb (connected lk)); [reflexivity|].
  destruct (accepts lk _); reflexivity.
Qed.

Lemma publish_status_run lk u s m e :
  publish_status lk u s m e = (Ret tt, status_log lk u s m e).
Proof.
  unfold status_log, publish_status.
  destruct (negb (connected lk)); [reflexivity|].
  destruct (accepts lk _); reflexivity.
Qed.

Lemma publish_heartbeats_ret E u hbs : fst (publish_heartbeats E u hbs) = Ret tt.
Proof.
  induction hbs as [|hb hbs IH]; [reflexivity|].
  cbn [publish_heartbeats]. rewrite publish_progress_run, bind_ret_l. exact IH.
Qed.

Ltac norm_pub :=
  repeat first
    [ rewrite publish_progress_run
    | rewrite publish_status_run
    | rewrite bind_ret_l
    | rewrite bind_raise_l ];
  cbn [fst snd].

Lemma execute_body_result E sp u :
  fst (execute_body E sp u) =
  match makedirs_raises E (user_output_dir E u) with
  | Some e => Raise e
  | None =>
    match cad_process E with
    | PopenRaises e => Raise e
    | ProcTimeout => Ret (failed_result "FreeCAD command timed out after 1 hour" None)
    | ProcExit rc out err =>
        if negb (rc =? 0)%Z
        then Ret (failed_result ("FreeCAD command failed with exit code " +:+ str_of_Z rc)
                                (Some (diagnostics out err)))
        else
          match fst (locate_artifacts E u) with
          | Raise e => Raise e
          | Ret [] =>
              Ret (failed_result "No STEP or OBJ files were generated"
                                 (Some (diagnostics out err)))
          | Ret (g :: gs) =>
              match fst (derive E u (length (g :: gs)) 0 (g :: gs) [] []) with
              | Raise e => Raise e
              | Ret (inl failure) => Ret failure
              | Ret (inr (pdf_files, json_files)) =>
                  Ret (success_result ((g :: gs) ++ pdf_files ++ json_files))
              end
          end
    end
  end.
Proof.
  unfold execute_body. norm_pub.
  unfold os_makedirs. fold (user_output_dir E u).
  destruct (makedirs_raises E _) as [e|]; [reflexivity|].
  unfold emit. norm_pub.
  rewrite (eta_M (publish_heartbeats _ _ _)), publish_heartbeats_ret. norm_pub.
  destruct (cad_process E) as [e| |rc out err]; [reflexivity|norm_pub; reflexivity|].
  destruct (negb (rc =? 0)%Z); [norm_pub; reflexivity|].
  norm_pub.
  destruct (locate_artifacts E u) as [[gen|e] l]; [|reflexivity].
  norm_pub. destruct gen as [|g gs]; [norm_pub; reflexivity|].
  norm_pub.
  destruct (derive E u _ 0 (g :: gs) [] []) as [[[f|[p j]]|e] l2]; norm_pub; reflexivity.
Qed.

(** [get_mqtt_manager()] returns the manager, or raises before anything
    was done. *)
Lemma manager_cases E :
  manager_available E \/ exists e, get_mqtt_manager E = raise e.
Proof.
  unfold manager_available, get_mqtt_manager, MQTTProgressManager_init.
  destruct (manager_built E); [by left|].
  destruct (broker_port _ _) as [port|e]; [|right; by exists e].
  destruct (new_client_raises E) as [e|]; [right; by exists e|by left].
Qed.

Lemma execute_available E sp uid :
  manager_available E ->
  execute_freecad_script E sp uid = execute_try E sp uid.
Proof.
  unfold manager_available, execute_freecad_script. intros ->.
  unfold ret. rewrite bind_ret_l. cbn [app]. by destruct (execute_try E sp uid).
Qed.

Lemma execute_unavailable E sp uid e :
  get_mqtt_manager E = raise e ->
  execute_freecad_script E sp uid = raise e.
Proof. unfold execute_freecad_script. by intros ->. Qed.

Lemma execute_returned_available E sp uid r :
  fst (execute_freecad_script E sp uid) = Ret r -> manager_available E.
Proof.
  intros H. destruct (manager_cases E) as [Ha|[e He]]; [exact Ha|].
  by rewrite (execute_unavailable _ _ _ _ He) in H.
Qed.

(** The log of an invocation is that of its [try] statement, and empty
    when the manager could not be obtained. *)
Lemma execute_log_cases E sp uid :
  snd (execute_freecad_script E sp uid) = [] \/
  snd (execute_freecad_script E sp uid) = snd (execute_try E sp uid).
Proof.
  destruct (manager_cases E) as [Ha|[e He]].
  - right. by rewrite (execute_available _ _ _ Ha).
  - left. by rewrite (execute_unavailable _ _ _ _ He).
Qed.

Lemma execute_result E sp uid :
  fst (execute_try E sp uid) =
  match fst (execute_body E sp (default (uuid4 E) uid)) with
  | Ret r => Ret r
  | Raise e =>
      Ret (failed_result
             match exn_cls e with
             | ExTimeoutExpired => "FreeCAD command timed out after 5 minutes"
             | _ => "Unexpected error: " +:+ exn_msg e
             end None)
  end.
Proof.
  unfold execute_try, try_finally, try_except. cbn [fst].
  destruct (execute_body E sp _) as [[r|e] l]; [reflexivity|].
  unfold execute_handler. norm_pub. reflexivity.
Qed.

Lemma derive_first_failure E u n pre : forall i p j f post,
  (forall g, In g pre -> d_type g = "step" ->
             cr_status (generate_json_from_step E (d_path g) u) = "success") ->
  d_type f = "step" ->
  cr_status (generate_json_from_step E (d_path f) u) <> "success" ->
  fst (derive E u n i (pre ++ f :: post) p j) =
  Ret (inl (failed_result
              (json_error_of (generate_json_from_step E (d_path f) u))
              (Some (JsonDetails (json_error_of (generate_json_from_step E (d_path f) u))
                                 (generate_json_from_step E (d_path f) u) (d_path f))))).
Proof.
  induction pre as [|g pre IH]; intros i p j f post Hpre Hf Hfail.
  - cbn [app derive]. rewrite Hf. cbn [String.eqb]. 
    replace (String.eqb "step" "step") with true by reflexivity.
    apply String.eqb_neq in Hfail. rewrite Hfail. norm_pub. reflexivity.
  - cbn [app derive]. destruct (String.eqb (d_type g) "step") eqn:Hg.
    + apply String.eqb_eq in Hg.
      rewrite (Hpre g (or_introl eq_refl) Hg). 
      replace (String.eqb "success" "success") with true by reflexivity.
      norm_pub. apply IH; auto. intros g' Hg'. apply Hpre. by right.
    + apply IH; auto. intros g' Hg'. apply Hpre. by right.
Qed.

(** derive never raises, and its early return is a failure dict *)
Lemma derive_returns E u n files : forall i p j,
  exists x, fst (derive E u n i files p j) = Ret x /\
            match x with
            | inl r => exists e d, r = failed_result e d
            | inr _ => True
            end.
Proof.
  induction files as [|g files IH]; intros i p j.
  - exists (inr (p, j)). by split.
  - cbn [derive]. destruct (String.eqb (d_type g) "step"); [|apply IH].
    norm_pub.
    destruct (String.eqb (cr_status (generate_json_from_step E (d_path g) u)) "success").
    + apply IH.
    + norm_pub. eexists. split; [reflexivity|]. by eexists _, _.
Qed.

Lemma derive_lists E u n files : forall i p j p' j',
  fst (derive E u n i files p j) = Ret (inr (p', j')) ->
  (forall d, In d p' -> In d p \/ exists g, In g files /\ pdf_of E u g d) /\
  (forall d, In d j' -> In d j \/ exists g, In g files /\ json_of E u g d).
Proof.
  induction files as [|g files IH]; intros i p j p' j' H.
  - cbn in H. injection H as <- <-. split; intros d Hd; by left.
  - cbn [derive] in H. destruct (String.eqb (d_type g) "step") eqn:Hg.
    + apply String.eqb_eq in Hg. revert H. norm_pub.
      destruct (String.eqb (cr_status (generate_json_from_step E (d_path g) u)) "success") eqn:Hj;
        [|norm_pub; discriminate].
      apply String.eqb_eq in Hj. intros H. apply IH in H as [Hp Hjs]. split.
      * intros d Hd. destruct (Hp d Hd) as [Hin|(g' & Hg' & Hof)].
        -- destruct (String.eqb (cr_status (generate_pdf_from_step E (d_path g) u)) "success") eqn:Hpdf;
             [|by left].
           apply in_app_or in Hin as [Hin|[<-|[]]]; [by left|].
           right. exists g. split; [by left|]. apply String.eqb_eq in Hpdf. by repeat split.
        -- right. exists g'. split; [by right|done].
      * intros d Hd. destruct (Hjs d Hd) as [Hin|(g' & Hg' & Hof)].
        -- apply in_app_or in Hin as [Hin|[<-|[]]]; [by left|].
           right. exists g. split; [by left|]. by repeat split.
        -- right. exists g'. split; [by right|done].
    + apply IH in H as [Hp Hjs]. split; intros d Hd.
      * destruct (Hp d Hd) as [|(g' & ? & ?)]; [by left|]. right. exists g'. split; [by right|done].
      * destruct (Hjs d Hd) as [|(g' & ? & ?)]; [by left|]. right. exists g'. split; [by right|done].
Qed.

Lemma promote_list E u c entries : forall acc out,
  fst (promote E u c entries acc) = Ret out ->
  forall d, In d out ->
    In d acc \/ exists root file, In (root, file) entries /\ promoted_from E u file d.
Proof.
  induction entries as [|[root file] entries IH]; intros acc out H d Hd.
  - cbn in H. injection H as <-. by left.
  - cbn [promote] in H.
    destruct (endswith ".step" file || endswith ".obj" file) eqn:Hext.
    + revert H. unfold shutil_copy2. destruct (copy2_raises E _ _); [discriminate|].
      unfold emit. norm_pub.
      assert (forall (m : M unit) (k : M (list descriptor)), fst m = Ret tt ->
                fst (bind m (fun _ => k)) = fst k) as Hskip.
      { intros m k Hm. rewrite fst_bind, Hm. reflexivity. }
      rewrite Hskip.
      2:{ destruct c; [|reflexivity]. unfold os_remove, try_except.
          destruct (remove_raises E _); reflexivity. }
      intros H. destruct (IH _ _ H d Hd) as [Hin|(r & f & Hin & Hp)].
      * apply in_app_or in Hin as [Hin|[<-|[]]]; [by left|].
        right. exists root, file. split; [by left|]. by repeat split.
      * right. exists r, f. split; [by right|done].
    + destruct (IH _ _ H d Hd) as [Hin|(r & f & Hin & Hp)]; [by left|].
      right. exists r, f. split; [by right|done].
Qed.

Lemma locate_list E u gen :
  fst (locate_artifacts E u) = Ret gen ->
  forall d, In d gen ->
    exists root file, In (root, file) (walk_user_dir E ++ walk_cad_output E) /\
                      promoted_from E u file d.
Proof.
  unfold locate_artifacts. intros H d Hd. rewrite fst_bind in H.
  destruct (fst (promote E u false (walk_user_dir E) [])) as [found|e] eqn:Hfound;
    [|discriminate].
  destruct found as [|g gs].
  - revert H. norm_pub. destruct (cad_output_exists E).
    + intros H. destruct (promote_list _ _ _ _ _ _ H d Hd) as [[]|(r & f & Hin & Hp)].
      exists r, f. split; [apply in_or_app; by right|done].
    + cbn. intros [= <-]. destruct Hd.
  - cbn in H. injection H as <-.
    destruct (promote_list _ _ _ _ _ _ Hfound d Hd) as [[]|(r & f & Hin & Hp)].
    exists r, f. split; [apply in_or_app; by left|done].
Qed.

(** ** The result does not depend on the PDF converter or on the process output *)

Lemma promote_with_pdf E pdf u c entries : forall acc,
  promote (with_pdf_converter E pdf) u c entries acc = promote E u c entries acc.
Proof.
  induction entries as [|[root file] entries IH]; intros acc; [reflexivity|].
  cbn [promote]. rewrite !IH. reflexivity.
Qed.

Lemma locate_with_pdf E pdf u :
  locate_artifacts (with_pdf_converter E pdf) u = locate_artifacts E u.
Proof.
  unfold locate_artifacts. rewrite promote_with_pdf.
  change (walk_user_dir (with_pdf_converter E pdf)) with (walk_user_dir E).
  destruct (promote E u false (walk_user_dir E) []) as [[[|g gs]|e] l];
    try reflexivity.
  norm_pub.
  change (cad_output_exists (with_pdf_converter E pdf)) with (cad_output_exists E).
  destruct (cad_output_exists E); [|reflexivity].
  rewrite promote_with_pdf. reflexivity.
Qed.




(** With another PDF converter the loop ends the same way, with the same
    JSON descriptors. *)
Lemma derive_with_pdf E pdf u n files : forall i p p' j,
  match fst (derive (with_pdf_converter E pdf) u n i files p' j),
        fst (derive E u n i files p j) with
  | Ret (inl r'), Ret (inl r) => r' = r
  | Ret (inr (_, j')), Ret (inr (_, j0)) => j' = j0
  | _, _ => False
  end.
Proof.
  induction files as [|g files IH]; intros i p p' j; [reflexivity|].
  cbn [derive]. destruct (String.eqb (d_type g) "step"); [|apply IH].
  norm_pub.
  change (generate_json_from_step (with_pdf_converter E pdf) (d_path g) u)
    with (generate_json_from_step E (d_path g) u).
  destruct (String.eqb (cr_status (generate_json_from_step E (d_path g) u)) "success").
  - apply IH.
  - norm_pub. reflexivity.
Qed.

Lemma derive_pdf_types E u n files i j q j' :
  fst (derive E u n i files [] j) = Ret (inr (q, j')) ->
  without_pdf q = [].
Proof.
  intros H. apply derive_lists in H as [Hq _].
  unfold without_pdf. induction q as [|d q IH]; [reflexivity|].
  cbn [List.filter].
  destruct (Hq d (or_introl eq_refl)) as [[]|(g & _ & _ & _ & ->)].
  cbn. apply IH. intros d' Hd'. apply Hq. by right.
Qed.

Lemma without_pdf_app (a b : list descriptor) :
  without_pdf (a ++ b) = without_pdf a ++ without_pdf b.
Proof. apply List.filter_app. Qed.

(* ===================================================================== *)
(** * The Job Executor returns, and what it returns                      *)
(* ===================================================================== *)

Lemma failed_result_well_formed e d : well_formed (failed_result e d).
Proof. right. split; [reflexivity|by eexists]. Qed.

Lemma success_result_well_formed fs : well_formed (success_result fs).
Proof. left. split; [reflexivity|by eexists]. Qed.

Lemma execute_try_returns E sp uid :
  exists r, fst (execute_try E sp uid) = Ret r /\ well_formed r.
Proof.
  rewrite execute_result, execute_body_result.
  destruct (makedirs_raises E _) as [e|].
  { eexists. split; [reflexivity|apply failed_result_well_formed]. }
  destruct (cad_process E) as [e| |rc out err].
  1,2: eexists; split; [reflexivity|apply failed_result_well_formed].
  destruct (negb (rc =? 0)%Z).
  { eexists. split; [reflexivity|apply failed_result_well_formed]. }
  destruct (fst (locate_artifacts E _)) as [[|g gs]|e].
  1,3: eexists; split; [reflexivity|apply failed_result_well_formed].
  destruct (derive_returns E (default (uuid4 E) uid)
              (length (g :: gs)) (g :: gs) 0 [] []) as (x & -> & Hx).
  destruct x as [r|[p j]].
  - destruct Hx as (e & d & ->).
    eexists. split; [reflexivity|apply failed_result_well_formed].
  - eexists. split; [reflexivity|apply success_result_well_formed].
Qed.

(** C9, evaluated: in a fresh worker process whose broker URL is
    "mqtt://broker" (a scheme and a host, no port), the constructor of the
    manager evaluates [int("//broker")]; [get_mqtt_manager()] stands
    before the [try] of [execute_freecad_script], so the [ValueError]
    leaves the function: no dict is returned, nothing is published and the
    script is not removed.  With the default URL the same world returns
    the success dict of Scenario A. *)
Theorem manager_failure_leaves_execute :
  broker_port 4300 "mqtt://broker"
  = Raise {| exn_cls := ExOther;
             exn_msg := "invalid literal for int() with base 10: '//broker'" |} /\
  execute_freecad_script scenario_portless Scenarios.script (Some "u1")
  = (Raise {| exn_cls := ExOther;
              exn_msg := "invalid literal for int() with base 10: '//broker'" |}, []) /\
  (forall r, fst (execute_freecad_script scenario_portless Scenarios.script (Some "u1"))
             <> Ret r) /\
  broker_port 4300 "mqtt://localhost:1883" = Ret 1883%Z /\
  exists files,
    fst (execute_freecad_script Scenarios.scenario_a Scenarios.script (Some "u1"))
    = Ret (success_result files).
Proof.
  split; [vm_compute; reflexivity|]. split; [vm_compute; reflexivity|].
  split; [intros r; vm_compute; discriminate|]. split; [vm_compute; reflexivity|].
  eexists. vm_compute. reflexivity.
Qed.

(** X11: [execute_freecad_script] propagates an exception exactly when
    [get_mqtt_manager()] raises one, and then nothing else was done.  Once
    the manager is obtained, for every behaviour of the CAD process, of the
    converters and of the file-system calls (exceptions included) it
    returns a dict whose "status" is "success" together with a "files"
    list, or "failed" together with an "error" string. *)
Theorem execute_returns_once_manager_is_obtained
    (E : env) (script_path : string) (user_id : option string) :
  (manager_available E ->
   exists r, fst (execute_freecad_script E script_path user_id) = Ret r /\
             well_formed r) /\
  (forall e, get_mqtt_manager E = raise e ->
     execute_freecad_script E script_path user_id = (Raise e, [])) /\
  (manager_available E \/ exists e, get_mqtt_manager E = raise e).
Proof.
  split; [|split].
  - intros Ha. rewrite (execute_available _ _ _ Ha). apply execute_try_returns.
  - intros e He. by apply execute_unavailable.
  - apply manager_cases.
Qed.

(** The theorem at Scenario A, where the port of the default URL parses. *)
Lemma execute_returns_once_manager_is_obtained_witness :
  exists r,
    fst (execute_freecad_script Scenarios.scenario_a Scenarios.script (Some "u1")) = Ret r /\
    well_formed r.
Proof.
  apply (execute_returns_once_manager_is_obtained Scenarios.scenario_a Scenarios.script
           (Some "u1")).
  vm_compute. reflexivity.
Defined.





(* ===================================================================== *)
(** * Derived conversions: JSON failure is fatal, PDF failure is not     *)
(* ===================================================================== *)

Lemma json_failure_has_error E path u :
  cr_status (generate_json_from_step E path u) <> "success" ->
  exists e, cr_error (generate_json_from_step E path u) = Some e.
Proof.
  unfold generate_json_from_step.
  destruct (json_converter E path) as [e|rc out err ex].
  - destruct (exn_cls e); intros _; by eexists.
  - destruct (negb (rc =? 0)%Z); [intros _; by eexists|].
    destruct ex; [intros H; by destruct H|intros _; by eexists].
Qed.

(** A run that located artifacts and whose first failing JSON conversion
    is that of [file_info] returns the failure of that conversion. *)
Lemma first_json_failure_is_returned E sp uid out err before file_info after :
  let u := default (uuid4 E) uid in
  manager_available E ->
  makedirs_raises E (user_output_dir E u) = None ->
  cad_process E = ProcExit 0 out err ->
  fst (locate_artifacts E u) = Ret (before ++ file_info :: after) ->
  (forall g, In g before -> d_type g = "step" ->
             cr_status (generate_json_from_step E (d_path g) u) = "success") ->
  d_type file_info = "step" ->
  cr_status (generate_json_from_step E (d_path file_info) u) <> "success" ->
  fst (execute_freecad_script E sp uid) =
  Ret (failed_result
         (json_error_of (generate_json_from_step E (d_path file_info) u))
         (Some (JsonDetails
                  (json_error_of (generate_json_from_step E (d_path file_info) u))
                  (generate_json_from_step E (d_path file_info) u)
                  (d_path file_info)))).
Proof.
  intros u Ha Hmk Hproc Hloc Hbefore Hstep Hfail.
  rewrite (execute_available _ _ _ Ha), execute_result, execute_body_result. fold u.
  rewrite Hmk, Hproc, Hloc. cbn [Z.eqb negb].
  destruct (before ++ file_info :: after) as [|g gs] eqn:Hgen.
  { by destruct before. }
  rewrite <- Hgen, (derive_first_failure E u _ before 0 [] [] file_info after);
    auto.
Qed.

(** Replacing the PDF converter changes neither status, error and details
    of the result nor any file of it that is not a PDF. *)
Lemma pdf_converter_is_irrelevant E sp uid pdf :
  manager_available E ->
  exists r r',
    fst (execute_freecad_script E sp uid) = Ret r /\
    fst (execute_freecad_script (with_pdf_converter E pdf) sp uid) = Ret r' /\
    jr_status r' = jr_status r /\ jr_error r' = jr_error r /\
    jr_details r' = jr_details r /\
    without_pdf <$> jr_files r' = without_pdf <$> jr_files r.
Proof.
  intros Ha.
  rewrite (execute_available E sp uid Ha),
    (execute_available (with_pdf_converter E pdf) sp uid Ha).
  rewrite !execute_result, !execute_body_result.
  change (uuid4 (with_pdf_converter E pdf)) with (uuid4 E).
  set (u := default (uuid4 E) uid).
  change (makedirs_raises (with_pdf_converter E pdf)
            (user_output_dir (with_pdf_converter E pdf) u))
    with (makedirs_raises E (user_output_dir E u)).
  change (cad_process (with_pdf_converter E pdf)) with (cad_process E).
  destruct (makedirs_raises E _) as [e|]; [by eexists _, _|].
  destruct (cad_process E) as [e| |rc out err]; [by eexists _, _..|].
  destruct (negb (rc =? 0)%Z); [by eexists _, _|].
  rewrite locate_with_pdf.
  destruct (fst (locate_artifacts E u)) as [[|g gs]|e];
    [by eexists _, _| |by eexists _, _].
  pose proof (derive_with_pdf E pdf u (length (g :: gs)) (g :: gs) 0 [] [] []) as Hrel.
  destruct (fst (derive (with_pdf_converter E pdf) u (length (g :: gs)) 0 (g :: gs) [] []))
    as [[r'|[q' j']]|e'] eqn:H';
    destruct (fst (derive E u (length (g :: gs)) 0 (g :: gs) [] []))
      as [[r|[q j]]|e] eqn:H; try contradiction.
  - subst r'. by eexists _, _.
  - subst j'. eexists _, _. repeat split. cbn [jr_files success_result fmap option_fmap option_map].
    f_equal. rewrite !without_pdf_app.
    by rewrite (derive_pdf_types _ _ _ _ _ _ _ _ H), (derive_pdf_types _ _ _ _ _ _ _ _ H').
Qed.

(** Among the located artifacts, the first STEP artifact whose JSON
    conversion fails. *)
Lemma first_failing_conversion E u (gen : list descriptor) f :
  In f gen -> d_type f = "step" ->
  cr_status (generate_json_from_step E (d_path f) u) <> "success" ->
  exists before first after,
    gen = before ++ first :: after /\
    (forall g, In g before -> d_type g = "step" ->
               cr_status (generate_json_from_step E (d_path g) u) = "success") /\
    d_type first = "step" /\
    cr_status (generate_json_from_step E (d_path first) u) <> "success".
Proof.
  induction gen as [|g gen IH]; intros Hin Hstep Hfail; [destruct Hin|].
  destruct (decide (d_type g = "step" /\
                    cr_status (generate_json_from_step E (d_path g) u) <> "success"))
    as [[Hg1 Hg2]|Hg].
  - exists [], g, gen. split; [reflexivity|]. split; [intros ? []|]. by split.
  - destruct Hin as [->|Hin]; [destruct Hg; by split|].
    destruct (IH Hin Hstep Hfail) as (before & first & after & -> & Hb & Hf1 & Hf2).
    exists (g :: before), first, after. split; [reflexivity|]. split; [|by split].
    intros g' [<-|Hg'] Hs; [|by apply Hb].
    destruct (decide (cr_status (generate_json_from_step E (d_path g) u) = "success"));
      [assumption|]. destruct Hg. by split.
Qed.

(** C2: for every invocation of [execute_freecad_script] that obtained
    the manager and found primary artifacts: if the JSON conversion of a primary STEP artifact
    fails, the invocation returns status "failed" and no file list,
    carrying the error of the failing conversion it ran into (that of the
    first STEP artifact, in scan order, whose conversion fails), whatever
    the PDF conversion of the same artifact did and whatever was
    promoted; and replacing the PDF converter by any other (failing or
    not) never changes status, error or details of the outcome, nor its
    non-PDF files. *)
Theorem json_failure_is_fatal_pdf_failure_is_not
    (E : env) (script_path : string) (user_id : option string) :
  manager_available E ->
  (forall stdout stderr generated_files file_info,
      makedirs_raises E (user_output_dir E (default (uuid4 E) user_id)) = None ->
      cad_process E = ProcExit 0 stdout stderr ->
      fst (locate_artifacts E (default (uuid4 E) user_id)) = Ret generated_files ->
      In file_info generated_files ->
      d_type file_info = "step" ->
      cr_status (generate_json_from_step E (d_path file_info)
                   (default (uuid4 E) user_id)) <> "success" ->
      exists r before first after error,
        fst (execute_freecad_script E script_path user_id) = Ret r /\
        jr_status r = "failed" /\
        jr_files r = None /\
        generated_files = before ++ first :: after /\
        (forall g, In g before -> d_type g = "step" ->
           cr_status (generate_json_from_step E (d_path g) (default (uuid4 E) user_id))
             = "success") /\
        d_type first = "step" /\
        cr_status (generate_json_from_step E (d_path first)
                     (default (uuid4 E) user_id)) <> "success" /\
        cr_error (generate_json_from_step E (d_path first)
                    (default (uuid4 E) user_id)) = Some error /\
        jr_error r = Some error) /\
  (forall pdf, exists r r',
      fst (execute_freecad_script E script_path user_id) = Ret r /\
      fst (execute_freecad_script (with_pdf_converter E pdf) script_path user_id) = Ret r' /\
      jr_status r' = jr_status r /\ jr_error r' = jr_error r /\
      jr_details r' = jr_details r /\
      without_pdf <$> jr_files r' = without_pdf <$> jr_files r).
Proof.
  intros Ha. split.
  - intros out err gen f Hmk Hproc Hloc Hin Hstep Hfail.
    destruct (first_failing_conversion E _ gen f Hin Hstep Hfail)
      as (before & first & after & -> & Hbefore & Hfirst & Hffail).
    destruct (json_failure_has_error _ _ _ Hffail) as [e He].
    eexists _, before, first, after, e. split.
    { apply (first_json_failure_is_returned E script_path user_id out err before first after);
        assumption. }
    unfold json_error_of. rewrite He. by repeat split.
  - intros pdf. by apply pdf_converter_is_irrelevant.
Qed.

(** The theorem at Scenario D: the PDF of [box_u1.step] was produced, its
    JSON conversion exits with code 1, and the job is failed. *)
Lemma json_failure_is_fatal_pdf_failure_is_not_witness :
  cr_status (generate_pdf_from_step Scenarios.scenario_d "/app/storage/box_u1.step" "u1")
    = "success" /\
  exists r,
    fst (execute_freecad_script Scenarios.scenario_d Scenarios.script (Some "u1")) = Ret r /\
    jr_status r = "failed" /\ jr_files r = None /\ is_Some (jr_error r).
Proof.
  split; [reflexivity|].
  destruct (json_failure_is_fatal_pdf_failure_is_not Scenarios.scenario_d
              Scenarios.script (Some "u1")) as [H _]; [reflexivity|].
  destruct (H "" ""
              [{| d_type := "step"; d_path := "/app/storage/box_u1.step";
                  d_filename := "box_u1.step" |}]
              {| d_type := "step"; d_path := "/app/storage/box_u1.step";
                 d_filename := "box_u1.step" |})
    as (r & before & first & after & e & Hr & Hs & Hf & _ & _ & _ & _ & _ & Herr).
  - reflexivity.
  - reflexivity.
  - vm_compute. reflexivity.
  - left. reflexivity.
  - reflexivity.
  - vm_compute. discriminate.
  - exists r. split; [exact Hr|]. split; [exact Hs|]. split; [exact Hf|].
    rewrite Herr. by eexists.
Defined.

(* ===================================================================== *)
(** * The heartbeat                                                      *)
(* ===================================================================== *)

(** Every entry the loop produces, by position. *)
Lemma heartbeat_loop_lookup fuel stop_at : forall t v k hb,
  heartbeat_loop fuel stop_at t v !! k = Some hb ->
  hb_time hb = t + 5 * k /\ hb_time hb < stop_at /\ hb_status hb = "running" /\
  hb_message hb = "FreeCAD script is running... (progress: " +:+ str_of_Z (hb_progress hb) +:+ "%)" /\
  (25 <= v <= 35 -> hb_progress hb = Z.min (v + 2 * (Z.of_nat k + 1)) 35)%Z.
Proof.
  induction fuel as [|fuel IH]; intros t v k hb H; [discriminate|].
  cbn [heartbeat_loop] in H.
  destruct (stop_at <=? t) eqn:Hstop; [discriminate|].
  apply Nat.leb_gt in Hstop.
  destruct k as [|k].
  - cbn in H. injection H as <-. cbn. repeat split; try lia.
  - cbn [lookup list_lookup] in H.
    destruct (stop_at <=? t + 5) eqn:Hs5; [discriminate|].
    apply IH in H as (Ht & Hlt & Hst & Hmsg & Hv).
    repeat split; try assumption; try lia.
Qed.

Lemma heartbeat_loop_enough fuel stop_at : forall fuel' t v,
  stop_at <= t + 5 * fuel -> stop_at <= t + 5 * fuel' ->
  heartbeat_loop fuel' stop_at t v = heartbeat_loop fuel stop_at t v.
Proof.
  induction fuel as [|fuel IH]; intros fuel' t v H H'.
  - destruct fuel' as [|fuel']; [reflexivity|]. cbn [heartbeat_loop].
    replace (stop_at <=? t) with true; [reflexivity|]. symmetry. apply Nat.leb_le. lia.
  - destruct fuel' as [|fuel'].
    + cbn [heartbeat_loop]. replace (stop_at <=? t) with true; [reflexivity|].
      symmetry. apply Nat.leb_le. lia.
    + cbn [heartbeat_loop]. destruct (stop_at <=? t); [reflexivity|].
      f_equal. destruct (stop_at <=? t + 5) eqn:Hs; [reflexivity|].
      apply IH; lia.
Qed.

Lemma heartbeat_loop_some fuel stop_at : forall t v k,
  stop_at <= t + 5 * fuel -> t + 5 * k < stop_at ->
  is_Some (heartbeat_loop fuel stop_at t v !! k).
Proof.
  induction fuel as [|fuel IH]; intros t v k H Hk; [lia|].
  cbn [heartbeat_loop].
  destruct (stop_at <=? t) eqn:Hstop; [apply Nat.leb_le in Hstop; lia|].
  destruct k as [|k]; [by eexists|].
  cbn [lookup list_lookup].
  destruct (stop_at <=? t + 5) eqn:Hs5; [apply Nat.leb_le in Hs5; lia|].
  apply IH; lia.
Qed.

Lemma heartbeat_loop_len fuel stop_at : forall t v,
  stop_at <= t + 5 * fuel ->
  length (heartbeat_loop fuel stop_at t v) = (stop_at - t + 4) / 5.
Proof.
  induction fuel as [|fuel IH]; intros t v H.
  - cbn. replace (stop_at - t + 4) with 4 by lia. reflexivity.
  - cbn [heartbeat_loop]. destruct (stop_at <=? t) eqn:Hstop.
    + apply Nat.leb_le in Hstop. replace (stop_at - t + 4) with 4 by lia. reflexivity.
    + apply Nat.leb_gt in Hstop. cbn [length].
      destruct (stop_at <=? t + 5) eqn:Hs5.
      * apply Nat.leb_le in Hs5. cbn [length].
        apply Nat.div_unique with (r := stop_at - t - 1); lia.
      * apply Nat.leb_gt in Hs5. rewrite IH by lia.
        replace (stop_at - t + 4) with ((stop_at - (t + 5) + 4) + 1 * 5) by lia.
        rewrite Nat.div_add by lia. lia.
Qed.

Lemma publish_heartbeats_log E u hbs :
  snd (publish_heartbeats E u hbs) =
  flat_map (fun hb => progress_log (mqtt E) u (hb_progress hb) (hb_status hb)
                                   (hb_message hb) None) hbs.
Proof.
  induction hbs as [|hb hbs IH]; [reflexivity|].
  cbn [publish_heartbeats flat_map]. norm_pub. by rewrite IH.
Qed.

(** C7: the heartbeat task started by [execute_freecad_script].  Every
    progress value it publishes lies between 25 and 35, each publish
    carries status "running", the k-th publish (from 0) happens 5*k
    seconds after the thread started and carries min(25 + 2(k+1), 35), so
    the values are non-decreasing and each is min(previous + 2, 35); the
    task publishes at every multiple of 5 seconds that precedes the
    setting of the stop event and at no other time, and the loop ends by
    itself once the event is set.  Time is the logical clock of
    [heartbeat_stop.wait(timeout=5)]. *)
Theorem heartbeat_stays_in_band (stop_at : nat) :
  (forall hb, In hb (heartbeat_worker stop_at) ->
     (25 <= hb_progress hb <= 35)%Z /\ hb_status hb = "running" /\
     hb_time hb < stop_at) /\
  (forall k hb, heartbeat_worker stop_at !! k = Some hb ->
     hb_time hb = 5 * k /\
     hb_progress hb = Z.min (25 + 2 * (Z.of_nat k + 1)) 35) /\
  (forall k a b,
     heartbeat_worker stop_at !! k = Some a ->
     heartbeat_worker stop_at !! S k = Some b ->
     hb_progress b = Z.min (hb_progress a + 2) 35 /\
     (hb_progress a <= hb_progress b)%Z /\
     hb_time b = hb_time a + 5) /\
  (forall k, 5 * k < stop_at -> is_Some (heartbeat_worker stop_at !! k)) /\
  length (heartbeat_worker stop_at) = (stop_at + 4) / 5 /\
  (forall fuel, stop_at <= 5 * fuel ->
     heartbeat_loop fuel stop_at 0 25 = heartbeat_worker stop_at) /\
  (forall E user_id,
     snd (publish_heartbeats E user_id (heartbeat_worker stop_at)) =
     flat_map (fun hb => progress_log (mqtt E) user_id (hb_progress hb)
                                      (hb_status hb) (hb_message hb) None)
              (heartbeat_worker stop_at)).
Proof.
  unfold heartbeat_worker.
  assert (forall k hb, heartbeat_loop (S stop_at) stop_at 0 25 !! k = Some hb ->
            hb_time hb = 5 * k /\ hb_time hb < stop_at /\ hb_status hb = "running" /\
            hb_progress hb = Z.min (25 + 2 * (Z.of_nat k + 1)) 35) as Hk.
  { intros k hb H. apply heartbeat_loop_lookup in H as (Ht & Hlt & Hst & _ & Hv).
    split; [lia|]. split; [assumption|]. split; [assumption|]. apply Hv. lia. }
  split; [|split; [|split; [|split; [|split; [|split]]]]].
  - intros hb H. apply list_elem_of_In, list_elem_of_lookup in H as [k H].
    apply Hk in H as (_ & Hlt & -> & ->). split; [lia|]. by split.
  - intros k hb H. apply Hk in H as (-> & _ & _ & ->). by split.
  - intros k a b H H0.
    apply Hk in H as (-> & _ & _ & ->). apply Hk in H0 as (-> & _ & _ & ->).
    split; [lia|]. split; lia.
  - intros k Hlt. apply heartbeat_loop_some; lia.
  - rewrite heartbeat_loop_len by lia. f_equal. lia.
  - intros fuel Hfuel. apply heartbeat_loop_enough; lia.
  - intros E u. apply publish_heartbeats_log.
Qed.

(* ===================================================================== *)
(** * The API handlers                                                   *)
(* ===================================================================== *)

Lemma scan_registry_owned Q u ids job :
  App.scan_registry Q u ids = Some job -> App.owned_by u job = true.
Proof.
  induction ids as [|i ids IH]; [discriminate|]. cbn [App.scan_registry].
  destruct (App.fetch Q i) as [j|]; [|exact IH].
  destruct (App.owned_by u j) eqn:Hj; [|exact IH]. by intros [= <-].
Qed.

(** The job the registry scan returns carries the owner id in its meta. *)
Lemma _find_job_for_user_owned Q u job :
  App._find_job_for_user Q u = Some job ->
  App.j_meta job !! "user_id" = Some u.
Proof.
  unfold App._find_job_for_user. cbn [App.scan_registries]. intros H.
  assert (App.owned_by u job = true) as Ho.
  { repeat match type of H with
           | match ?x with _ => _ end = _ =>
               let E := fresh in destruct x eqn:E;
               [injection H as <-; by apply scan_registry_owned in E|]
           end.
    discriminate. }
  by apply bool_decide_eq_true in Ho.
Qed.

(** C5: when the Progress Channel holds no record for the owner and the
    registry scan finds a Job Record of that owner, [GET /status] answers
    200 with that job's id and state, taken from the queue ("redis"), and
    with a progress derived from the state alone: 50 for "started", 100
    for "finished", 0 for every other state. *)
Theorem status_falls_back_to_job_record
    (E : App.env) (user_id : string) (job : App.Job) :
  get_progress (App.progress_data E) user_id = None ->
  App._find_job_for_user (App.jobs E) user_id = Some job ->
  exists body,
    App.JobStatus_get E user_id = App.Returned 200 body /\
    App.sb_user_id body = user_id /\
    App.sb_job_id body = Some (App.j_id job) /\
    App.sb_status body = JStr (App.j_status job) /\
    App.sb_data_source body = "redis" /\
    (App.j_status job = "started" -> App.sb_progress body = JInt 50) /\
    (App.j_status job = "finished" -> App.sb_progress body = JInt 100) /\
    (App.j_status job <> "started" -> App.j_status job <> "finished" ->
     App.sb_progress body = JInt 0).
Proof.
  intros Hnone Hjob. unfold App.JobStatus_get. rewrite Hnone, Hjob.
  cbn [App.except_abort]. eexists. split; [reflexivity|].
  cbn [App.sb_user_id App.sb_job_id App.sb_status App.sb_data_source App.sb_progress].
  repeat (split; [reflexivity|]).
  split; [|split].
  - intros ->. reflexivity.
  - intros ->. reflexivity.
  - intros H1 H2. apply String.eqb_neq in H1, H2. by rewrite H1, H2.
Qed.

(** The theorem at Scenario E: no Progress Channel record, a finished Job
    Record. *)
Lemma status_falls_back_to_job_record_witness :
  exists body,
    App.JobStatus_get (Scenarios.api [Scenarios.job_of Scenarios.scenario_a] []) "u1"
      = App.Returned 200 body /\
    App.sb_status body = JStr "finished" /\
    App.sb_progress body = JInt 100.
Proof.
  destruct (status_falls_back_to_job_record
              (Scenarios.api [Scenarios.job_of Scenarios.scenario_a] []) "u1"
              (Scenarios.job_of Scenarios.scenario_a))
    as (body & Hget & _ & _ & Hst & _ & _ & Hfin & _).
  - reflexivity.
  - vm_compute. reflexivity.
  - exists body. split; [exact Hget|]. split; [exact Hst|]. apply Hfin. reflexivity.
Defined.

(** ** GET /download *)


(** C4, evaluated: a download of a file that exists nowhere, and a
    download of an existing file whose name does not contain the owner
    id, are both answered with status 500, not 404 and 403; a download by
    the owner named in the file is served. *)
Theorem download_failures_answer_500 :
  App.status_code
    (App.DownloadFile_get (Scenarios.api [] []) "u1" "box_u1.step") = 500 /\
  App.status_code
    (App.DownloadFile_get (Scenarios.api [] ["/app/storage/box_u2.step"])
       "u1" "box_u2.step") = 500 /\
  App.DownloadFile_get (Scenarios.api [] ["/app/storage/box_u1.step"])
    "u1" "box_u1.step"
  = App.Returned 200
      {| App.att_path := "/app/storage/box_u1.step";
         App.att_download_name := "box_u1.step";
         App.att_mimetype := "application/octet-stream" |}.
Proof. repeat split; vm_compute; reflexivity. Qed.

(** ** GET /result and GET /status for a failed job *)

(** The registry loop passes over the ids it cannot fetch and over the
    jobs of other owners. *)
Lemma result_loop_skips E user_id auto_download (skipped l : list string) :
  (forall job_id, In job_id skipped ->
     match App.fetch (App.jobs E) job_id with
     | None => True
     | Some other => App.owned_by user_id other = false
     end) ->
  App.result_loop E user_id auto_download (skipped ++ l)
  = App.result_loop E user_id auto_download l.
Proof.
  induction skipped as [|job_id skipped IH]; intros H; [reflexivity|].
  cbn [app App.result_loop]. pose proof (H job_id (or_introl eq_refl)) as Hid.
  destruct (App.fetch (App.jobs E) job_id) as [other|].
  - rewrite Hid. apply IH. intros j Hj. apply H. by right.
  - apply IH. intros j Hj. apply H. by right.
Qed.

(** X4: [GET /result] without auto_download.  When the first Job Record
    of the owner that the finished registry yields (the ids before it
    cannot be fetched or belong to other owners) is in state "finished",
    the endpoint answers 200 with status "success", the id of that job and
    the "files" of the stored result (none when the result has no such
    key), whatever "status" and "error" the stored result carries. *)
Theorem finished_job_is_success (E : App.env) (user_id : string) (job : App.Job)
    (skipped rest : list string) :
  App.finished_job_ids (App.jobs E) = skipped ++ App.j_id job :: rest ->
  (forall job_id, In job_id skipped ->
     match App.fetch (App.jobs E) job_id with
     | None => True
     | Some other => App.owned_by user_id other = false
     end) ->
  App.fetch (App.jobs E) (App.j_id job) = Some job ->
  App.owned_by user_id job = true ->
  App.j_status job = "finished" ->
  App.JobResult_get E user_id false
  = App.Returned 200
      {| App.rb_user_id := user_id;
         App.rb_job_id := Some (App.j_id job);
         App.rb_status := "success";
         App.rb_message := None;
         App.rb_files :=
           App.file_of_descriptor <$>
             match App.j_result job with
             | Some result => default [] (jr_files result)
             | None => []
             end;
         App.rb_output_directory := None;
         App.rb_completed_at := Some (default (App.iso_now E) (App.j_ended_at job)) |}.
Proof.
  intros Hids Hskip Hf Ho Hs. unfold App.JobResult_get.
  rewrite Hids, (result_loop_skips E user_id false skipped _ Hskip).
  cbn [App.result_loop]. rewrite Hf, Ho, Hs.
  replace (String.eqb "finished" "finished") with true by reflexivity.
  cbn [negb]. unfold App._return_result. reflexivity.
Qed.

(** C1, evaluated at Scenario B: the CAD process exits with code 1, the
    worker returns a dict with status "failed" and an error string, RQ
    records the job as finished with that dict as its result, and then
    [GET /result] answers 200 with status "success" and an empty file
    list, and [GET /status], without a Progress Channel record, answers
    status "finished", progress 100 and no error. *)
Theorem failed_job_reported_as_success :
  fst (execute_freecad_script Scenarios.scenario_b Scenarios.script (Some "u1"))
  = Ret (failed_result "FreeCAD command failed with exit code 1"
           (Some (DiagDetails "See stdout_tail/stderr_tail for details." []
                    ["Traceback (most recent call last):"]))) /\
  App.JobResult_get (Scenarios.api [Scenarios.job_of Scenarios.scenario_b] []) "u1" false
  = App.Returned 200
      {| App.rb_user_id := "u1"; App.rb_job_id := Some "job-1";
         App.rb_status := "success"; App.rb_message := None;
         App.rb_files := []; App.rb_output_directory := None;
         App.rb_completed_at := Some "2024-05-01T10:04:00+00:00" |} /\
  App.JobStatus_get (Scenarios.api [Scenarios.job_of Scenarios.scenario_b] []) "u1"
  = App.Returned 200
      {| App.sb_user_id := "u1"; App.sb_job_id := Some "job-1";
         App.sb_status := JStr "finished"; App.sb_progress := JInt 100;
         App.sb_message := JStr "Job finished (from Redis queue)";
         App.sb_error := JNull;
         App.sb_updated_at := JStr "2024-05-01T10:04:00+00:00";
         App.sb_data_source := "redis"; App.sb_mqtt_connected := false |}.
Proof. repeat split; vm_compute; reflexivity. Qed.

(** ** The working directory after a run *)

(** C3, evaluated: starting from an empty storage root, the owner's
    working directory still exists after an invocation that ends with a
    non-zero exit code, with the wall-clock timeout, or with an exception
    of the process launch; it is removed when the process exits with 0
    (success, and failed JSON conversion alike). *)
Theorem working_directory_left_behind :
  elements (apply_effects
              (snd (execute_freecad_script Scenarios.scenario_b Scenarios.script (Some "u1")))
              ∅) = ["/app/storage/user_u1"] /\
  elements (apply_effects
              (snd (execute_freecad_script Scenarios.scenario_timeout Scenarios.script (Some "u1")))
              ∅) = ["/app/storage/user_u1"] /\
  elements (apply_effects
              (snd (execute_freecad_script Scenarios.scenario_crash Scenarios.script (Some "u1")))
              ∅) = ["/app/storage/user_u1"] /\
  elements (apply_effects
              (snd (execute_freecad_script Scenarios.scenario_a Scenarios.script (Some "u1")))
              ∅) = ["/app/storage/box_u1.step"] /\
  elements (apply_effects
              (snd (execute_freecad_script Scenarios.scenario_d Scenarios.script (Some "u1")))
              ∅) = ["/app/storage/box_u1.step"].
Proof. repeat split; vm_compute; reflexivity. Qed.

(* ===================================================================== *)
(** * The Progress Channel: what a run publishes and what is kept        *)
(* ===================================================================== *)

Lemma Forall_bind {A B} (P : effect -> Prop) (m : M A) (f : A -> M B) :
  Forall P (snd m) ->
  (forall a, fst m = Ret a -> Forall P (snd (f a))) ->
  Forall P (snd (bind m f)).
Proof.
  intros Hm Hf. rewrite snd_bind. apply Forall_app. split; [exact Hm|].
  destruct (fst m) as [a|e]; [by apply Hf|constructor].
Qed.

Lemma no_error_key_progress lk u p s m :
  progress_data_of lk u p s m None !! "error" = None.
Proof. unfold progress_data_of, with_error. by simplify_map_eq. Qed.

Lemma no_error_key_status lk u s m :
  status_data_of lk u s m None !! "error" = None.
Proof. unfold status_data_of, with_error. by simplify_map_eq. Qed.

Lemma error_free_progress_log lk u p s m :
  Forall error_free (progress_log lk u p s m None).
Proof.
  unfold progress_log, publish_progress.
  destruct (negb (connected lk)); [constructor|].
  destruct (accepts lk _); [|constructor].
  constructor; [apply no_error_key_progress|constructor].
Qed.

Lemma error_free_status_log lk u s m :
  Forall error_free (status_log lk u s m None).
Proof.
  unfold status_log, publish_status.
  destruct (negb (connected lk)); [constructor|].
  destruct (accepts lk _); [|constructor].
  constructor; [apply no_error_key_status|constructor].
Qed.

Lemma heartbeats_error_free E u hbs :
  Forall error_free (snd (publish_heartbeats E u hbs)).
Proof.
  induction hbs as [|hb hbs IH]; [constructor|].
  cbn [publish_heartbeats]. apply Forall_bind; [|intros _ _; exact IH].
  apply error_free_progress_log.
Qed.

Lemma promote_error_free E u c entries : forall acc,
  Forall error_free (snd (promote E u c entries acc)).
Proof.
  induction entries as [|[root file] entries IH]; intros acc; [constructor|].
  cbn [promote]. destruct (_ || _); [|apply IH].
  apply Forall_bind.
  { unfold shutil_copy2. destruct (copy2_raises E _ _); repeat constructor. }
  intros _ _. apply Forall_bind; [|intros _ _; apply IH].
  destruct c; [|constructor]. unfold os_remove, try_except.
  destruct (remove_raises E _); repeat constructor.
Qed.

Lemma locate_error_free E u : Forall error_free (snd (locate_artifacts E u)).
Proof.
  unfold locate_artifacts. apply Forall_bind; [apply promote_error_free|].
  intros [|g gs] _; [|constructor].
  apply Forall_bind; [apply error_free_progress_log|]. intros _ _.
  destruct (cad_output_exists E); [apply promote_error_free|constructor].
Qed.

Lemma derive_error_free E u n files : forall i p j x,
  fst (derive E u n i files p j) = Ret (inr x) ->
  Forall error_free (snd (derive E u n i files p j)).
Proof.
  induction files as [|g files IH]; intros i p j x H; [constructor|].
  cbn [derive] in *. destruct (String.eqb (d_type g) "step"); [|by eapply IH].
  rewrite fst_bind in H. rewrite publish_progress_run in H. cbn [fst] in H.
  apply Forall_bind; [apply error_free_progress_log|]. intros _ _.
  destruct (String.eqb (cr_status (generate_json_from_step E (d_path g) u)) "success").
  - by eapply IH.
  - revert H. norm_pub. discriminate.
Qed.

Lemma announces_bind {A} E u (m : M A) (f : A -> M job_result) :
  Forall error_free (snd m) ->
  (forall a, fst m = Ret a -> announces E u (f a)) ->
  announces E u (bind m f).
Proof.
  intros Hm Hf r Hr Hs. rewrite fst_bind in Hr. rewrite snd_bind.
  destruct (fst m) as [a|e]; [|discriminate].
  destruct (Hf a eq_refl r Hr Hs) as (pre & m1 & m2 & -> & Hpre).
  exists (snd m ++ pre), m1, m2. split; [by rewrite app_assoc|].
  apply Forall_app. by split.
Qed.

Lemma announces_failed E u e d : announces E u (ret (failed_result e d)).
Proof. intros r [= <-] Hs. discriminate. Qed.

Lemma announces_raise E u e : announces E u (raise e).
Proof. intros r H. discriminate. Qed.

Lemma execute_body_announces E sp u : announces E u (execute_body E sp u).
Proof.
  unfold execute_body.
  apply announces_bind; [apply error_free_status_log|intros _ _].
  apply announces_bind; [apply error_free_progress_log|intros _ _].
  apply announces_bind.
  { unfold os_makedirs. destruct (makedirs_raises E _); repeat constructor. }
  intros _ _.
  apply announces_bind; [apply error_free_progress_log|intros _ _].
  apply announces_bind; [apply error_free_progress_log|intros _ _].
  apply announces_bind; [apply heartbeats_error_free|intros _ _].
  destruct (cad_process E) as [e| |rc out err].
  - apply announces_raise.
  - intros r. norm_pub. intros [= <-]. discriminate.
  - destruct (negb (rc =? 0)%Z).
    { intros r. norm_pub. intros [= <-]. discriminate. }
    apply announces_bind; [apply error_free_progress_log|intros _ _].
    apply announces_bind; [apply error_free_progress_log|intros _ _].
    apply announces_bind; [apply locate_error_free|intros gen _].
    apply announces_bind; [repeat constructor|intros _ _].
    destruct gen as [|g gs].
    { intros r. norm_pub. intros [= <-]. discriminate. }
    apply announces_bind; [apply error_free_progress_log|intros _ _].
    intros r Hr Hs. rewrite fst_bind in Hr. rewrite snd_bind.
    destruct (fst (derive E u (length (g :: gs)) 0 (g :: gs) [] [])) as [[f|[p j]]|e] eqn:Hd;
      [| |discriminate].
    + destruct (derive_returns E u (length (g :: gs)) (g :: gs) 0 [] []) as (x & Hx & Hsh).
      rewrite Hd in Hx. injection Hx as <-. destruct Hsh as (e & d & ->).
      cbn in Hr. injection Hr as <-. discriminate.
    + revert Hr. norm_pub. intros _.
      eexists _, _, _. split; [rewrite app_nil_r; reflexivity|].
      by eapply derive_error_free.
Qed.

Lemma cleanup_silent E sp : Forall silent (snd (cleanup_script E sp)).
Proof.
  unfold cleanup_script, try_except.
  destruct (Worker.path_exists E sp); [|constructor].
  unfold os_remove. destruct (remove_raises E sp); [constructor|].
  unfold emit. rewrite bind_ret_l. cbn [fst snd].
  destruct (_ && _); [|repeat constructor].
  unfold os_rmdir. destruct (rmdir_raises E _); repeat constructor.
Qed.

Lemma deliver_app now l1 l2 pd :
  deliver now (l1 ++ l2) pd = deliver now l2 (deliver now l1 pd).
Proof. apply fold_left_app. Qed.

Lemma deliver_silent now log : forall pd, Forall silent log -> deliver now log pd = pd.
Proof.
  induction log as [|ef log IH]; intros pd H; [reflexivity|].
  inversion H as [|? ? Hef Hlog]; subst. cbn [deliver fold_left].
  destruct ef; try (apply IH; assumption). destruct Hef.
Qed.

Lemma on_message_keeps_error now topic data
    (pd : gmap string progress_record) u r :
  pd !! u = Some r -> data !! "error" = None ->
  exists r', _on_message now topic (Some (JObj data)) pd !! u = Some r' /\
             pr_error r' = pr_error r.
Proof.
  intros Hr Hdata. unfold _on_message.
  destruct (3 <=? _)%nat; [|by exists r].
  set (owner := default "" (last (split_on "/" topic))).
  destruct (decide (owner = u)) as [->|Hne].
  - rewrite lookup_insert_eq, Hr. eexists. split; [reflexivity|].
    cbn [default]. unfold merge_key at 1. rewrite Hdata.
    unfold merge_key.
    destruct (data !! "message"), (data !! "status"), (data !! "progress"); reflexivity.
  - rewrite lookup_insert_ne by done. by exists r.
Qed.

Lemma deliver_keeps_error now log : forall (pd : gmap string progress_record) u r,
  Forall error_free log -> pd !! u = Some r ->
  exists r', deliver now log pd !! u = Some r' /\ pr_error r' = pr_error r.
Proof.
  induction log as [|ef log IH]; intros pd u r H Hr; [by exists r|].
  inversion H as [|? ? Hef Hlog]; subst. cbn [deliver fold_left].
  destruct ef as [topic data| | | | |]; try (by apply IH).
  destruct (on_message_keeps_error now topic data pd u r Hr Hef) as (r1 & Hr1 & He1).
  destruct (IH _ u r1 Hlog Hr1) as (r' & Hr' & He'). exists r'. split; [exact Hr'|congruence].
Qed.

Lemma topic_levels (family u : string) :
  has_char "/" u = false ->
  split_on "/" (family +:+ "/" +:+ u) = split_on "/" family ++ [u].
Proof. intros H. change (family +:+ "/" +:+ u) with (family +:+ String "/" u). by apply split_on_app. Qed.

Lemma final_progress_received now lk u msg (pd : gmap string progress_record) r :
  has_char "/" u = false -> pd !! u = Some r ->
  exists r',
    _on_message now ("freecad/progress/" +:+ u)
      (Some (JObj (progress_data_of lk u 100 "finished" msg None))) pd !! u = Some r' /\
    pr_status r' = JStr "finished" /\ pr_progress r' = JInt 100 /\
    pr_error r' = pr_error r.
Proof.
  intros Hu Hr. unfold _on_message.
  change ("freecad/progress/" +:+ u) with ("freecad/progress" +:+ "/" +:+ u).
  rewrite (topic_levels _ _ Hu).
  change (split_on "/" "freecad/progress") with ["freecad"; "progress"].
  cbn [app length Nat.leb last from_option id]. rewrite lookup_insert_eq, Hr. cbn [from_option id].
  eexists. split; [reflexivity|].
  unfold merge_key, progress_data_of, with_error. simplify_map_eq. by repeat split.
Qed.

Lemma final_status_received now lk u msg (pd : gmap string progress_record) r :
  has_char "/" u = false -> pd !! u = Some r ->
  exists r',
    _on_message now ("freecad/status/" +:+ u)
      (Some (JObj (status_data_of lk u "finished" msg None))) pd !! u = Some r' /\
    pr_status r' = JStr "finished" /\ pr_progress r' = pr_progress r /\
    pr_error r' = pr_error r.
Proof.
  intros Hu Hr. unfold _on_message.
  change ("freecad/status/" +:+ u) with ("freecad/status" +:+ "/" +:+ u).
  rewrite (topic_levels _ _ Hu).
  change (split_on "/" "freecad/status") with ["freecad"; "status"].
  cbn [app length Nat.leb last from_option id]. rewrite lookup_insert_eq, Hr. cbn [from_option id].
  eexists. split; [reflexivity|].
  unfold merge_key, status_data_of, with_error. simplify_map_eq. by repeat split.
Qed.

Lemma execute_log_returned E sp uid r :
  fst (execute_body E sp (default (uuid4 E) uid)) = Ret r ->
  snd (execute_try E sp uid) =
  snd (execute_body E sp (default (uuid4 E) uid)) ++ snd (cleanup_script E sp).
Proof.
  intros H. unfold execute_try, try_finally, try_except. cbn [snd].
  destruct (execute_body E sp _) as [[r'|e] l]; [reflexivity|discriminate].
Qed.

Lemma successful_job_keeps_stale_error E sp u now (pd : gmap string progress_record) r0 res :
  connected (mqtt E) = true ->
  (forall topic, accepts (mqtt E) topic = true) ->
  has_char "/" u = false ->
  fst (execute_freecad_script E sp (Some u)) = Ret res ->
  jr_status res = "success" ->
  pd !! u = Some r0 ->
  exists r',
    deliver now (snd (execute_freecad_script E sp (Some u))) pd !! u = Some r' /\
    pr_status r' = JStr "finished" /\ pr_progress r' = JInt 100 /\
    pr_error r' = pr_error r0.
Proof.
  intros Hconn Hacc Hu Hres Hs Hr0.
  pose proof (execute_returned_available _ _ _ _ Hres) as Ha.
  rewrite (execute_available _ _ _ Ha) in *.
  rewrite execute_result in Hres. cbn [from_option id] in Hres.
  destruct (fst (execute_body E sp u)) as [r|e] eqn:Hbody;
    [injection Hres as ->|injection Hres as <-; discriminate].
  rewrite (execute_log_returned E sp (Some u) res Hbody). cbn [from_option id].
  destruct (execute_body_announces E sp u res Hbody Hs) as (pre & m1 & m2 & -> & Hpre).
  rewrite !deliver_app, (deliver_silent _ _ _ (cleanup_silent E sp)).
  destruct (deliver_keeps_error now pre pd u r0 Hpre Hr0) as (r1 & Hr1 & He1).
  unfold progress_log, status_log, publish_progress, publish_status.
  rewrite Hconn, !Hacc. cbn [negb snd emit deliver fold_left].
  destruct (final_progress_received now (mqtt E) u m1 _ r1 Hu Hr1) as (r2 & Hr2 & Hs2 & Hp2 & He2).
  destruct (final_status_received now (mqtt E) u m2 _ r2 Hu Hr2) as (r3 & Hr3 & Hs3 & Hp3 & He3).
  exists r3. split; [exact Hr3|]. split; [exact Hs3|]. split; congruence.
Qed.

(** C10: once the in-memory record of an owner has a non-null "error"
    field, no received event without an "error" key clears or changes it;
    [publish_progress] and [publish_status] called with error [None]
    build a dict without that key; hence, when a later job of the same
    owner succeeds and its events are received (the worker's link is
    connected and accepts the topics, the owner id is one topic level),
    the record ends with status "finished" and progress 100 and still
    carries the stale error string of the earlier job. *)
Theorem stale_error_survives_later_success :
  (forall received_at topic data (progress_data : gmap string progress_record)
          user_id r,
     progress_data !! user_id = Some r ->
     pr_error r <> JNull ->
     data !! "error" = None ->
     exists r',
       _on_message received_at topic (Some (JObj data)) progress_data !! user_id = Some r' /\
       pr_error r' = pr_error r) /\
  (forall lk user_id progress status message,
     progress_data_of lk user_id progress status message None !! "error" = None /\
     status_data_of lk user_id status message None !! "error" = None /\
     Forall error_free (progress_log lk user_id progress status message None) /\
     Forall error_free (status_log lk user_id status message None)) /\
  (forall E script_path user_id received_at
          (progress_data : gmap string progress_record) r0 stale res,
     connected (mqtt E) = true ->
     (forall topic, accepts (mqtt E) topic = true) ->
     has_char "/" user_id = false ->
     progress_data !! user_id = Some r0 ->
     pr_error r0 = JStr stale ->
     fst (execute_freecad_script E script_path (Some user_id)) = Ret res ->
     jr_status res = "success" ->
     exists r',
       deliver received_at
         (snd (execute_freecad_script E script_path (Some user_id)))
         progress_data !! user_id = Some r' /\
       pr_status r' = JStr "finished" /\
       pr_progress r' = JInt 100 /\
       pr_error r' = JStr stale).
Proof.
  split; [|split].
  - intros now topic data pd u r Hr _ Hdata. by apply on_message_keeps_error.
  - intros lk u p s m.
    split; [apply no_error_key_progress|]. split; [apply no_error_key_status|].
    split; [apply error_free_progress_log|apply error_free_status_log].
  - intros E sp u now pd r0 stale res Hconn Hacc Hu Hr0 Hstale Hres Hs.
    destruct (successful_job_keeps_stale_error E sp u now pd r0 res)
      as (r' & Hr' & Hst & Hp & He); try assumption.
    exists r'. rewrite <- Hstale. by repeat split.
Qed.

(** The theorem at Scenario B followed by Scenario A for the same owner:
    the record left by the failed job keeps its error through the
    successful one. *)
Lemma stale_error_survives_later_success_witness :
  exists r',
    deliver Scenarios.received_at
      (snd (execute_freecad_script Scenarios.scenario_a Scenarios.script (Some "u1")))
      (deliver Scenarios.received_at
         (snd (execute_freecad_script Scenarios.scenario_b Scenarios.script (Some "u1")))
         ∅) !! "u1" = Some r' /\
    pr_status r' = JStr "finished" /\
    pr_progress r' = JInt 100 /\
    pr_error r' = JStr "{'error_hint': ...}".
Proof.
  destruct stale_error_survives_later_success as (_ & _ & H).
  apply (H Scenarios.scenario_a Scenarios.script "u1" Scenarios.received_at _
           {| pr_status := JStr "failed"; pr_progress := JInt 0;
              pr_message := JStr "FreeCAD command failed with exit code 1";
              pr_updated_at := JStr Scenarios.received_at;
              pr_error := JStr "{'error_hint': ...}" |}
           "{'error_hint': ...}"
           (success_result
              [{| d_type := "step"; d_path := "/app/storage/box_u1.step";
                  d_filename := "box_u1.step" |};
               {| d_type := "pdf"; d_path := "/app/storage/box_u1_u1.pdf";
                  d_filename := "box_u1_u1.pdf" |};
               {| d_type := "json"; d_path := "/app/storage/box_u1_u1.json";
                  d_filename := "box_u1_u1.json" |}])).
  - reflexivity.
  - intros topic. reflexivity.
  - reflexivity.
  - vm_compute. reflexivity.
  - reflexivity.
  - vm_compute. reflexivity.
  - reflexivity.
Defined.

(* ===================================================================== *)
(** * Artifact names                                                     *)
(* ===================================================================== *)

(** The name of a derived file, for an owner id without path separator. *)
Lemma derived_name (S p u ext : string) :
  has_char "/" u = false -> has_char "/" ext = false ->
  1 <= String.length ext ->
  path_name (path_div S ((path_stem p +:+ "_" +:+ u) +:+ ext))
  = path_stem p +:+ "_" +:+ u +:+ ext.
Proof.
  intros Hu Hext Hlen. rewrite path_name_div.
  - by rewrite !app_assoc_s.
  - rewrite !has_char_app, path_stem_no_slash, Hu, Hext. reflexivity.
  - intros H. apply (f_equal String.length) in H.
    rewrite !length_app_s in H. cbn in H. lia.
  - intros H. apply (f_equal String.length) in H.
    rewrite !length_app_s in H. cbn in H. lia.
Qed.

Lemma pdf_filename E p u :
  cr_status (generate_pdf_from_step E p u) = "success" ->
  cr_filename (generate_pdf_from_step E p u)
  = Some (path_name (path_div (STORAGE_PATH E) ((path_stem p +:+ "_" +:+ u) +:+ ".pdf"))).
Proof.
  unfold generate_pdf_from_step.
  destruct (pdf_converter E p) as [e|ok path msg].
  - destruct (exn_cls e); discriminate.
  - destruct (ok && truthy path); [reflexivity|discriminate].
Qed.

Lemma json_filename E p u :
  cr_status (generate_json_from_step E p u) = "success" ->
  cr_filename (generate_json_from_step E p u)
  = Some (path_name (path_div (STORAGE_PATH E) ((path_stem p +:+ "_" +:+ u) +:+ ".json"))).
Proof.
  unfold generate_json_from_step.
  destruct (json_converter E p) as [e|rc out err ex].
  - destruct (exn_cls e); discriminate.
  - destruct (negb (rc =? 0)%Z); [discriminate|].
    destruct ex; [reflexivity|discriminate].
Qed.

Lemma owner_in_name (stem u ext : string) :
  py_in u (stem +:+ "_" +:+ u +:+ ext) = true.
Proof. rewrite <- app_assoc_s. apply py_in_app. Qed.

(** The files of a successful result: the located primaries, then the
    derived PDFs, then the derived JSONs. *)
Lemma success_files E sp uid r files :
  fst (execute_freecad_script E sp uid) = Ret r ->
  jr_files r = Some files ->
  exists gen pdfs jsons,
    files = gen ++ pdfs ++ jsons /\
    fst (locate_artifacts E (default (uuid4 E) uid)) = Ret gen /\
    (forall d, In d pdfs -> exists g, In g gen /\ pdf_of E (default (uuid4 E) uid) g d) /\
    (forall d, In d jsons -> exists g, In g gen /\ json_of E (default (uuid4 E) uid) g d).
Proof.
  intros Hres. pose proof (execute_returned_available _ _ _ _ Hres) as Ha.
  revert Hres. rewrite (execute_available _ _ _ Ha).
  rewrite execute_result, execute_body_result.
  set (u := default (uuid4 E) uid).
  destruct (makedirs_raises E _) as [e|]; [intros [= <-]; discriminate|].
  destruct (cad_process E) as [e| |rc out err]; [intros [= <-]; discriminate..|].
  destruct (negb (rc =? 0)%Z); [intros [= <-]; discriminate|].
  destruct (fst (locate_artifacts E u)) as [[|g gs]|e] eqn:Hloc;
    [intros [= <-]; discriminate| |intros [= <-]; discriminate].
  destruct (fst (derive E u (length (g :: gs)) 0 (g :: gs) [] [])) as [[f|[p j]]|e] eqn:Hd.
  - destruct (derive_returns E u (length (g :: gs)) (g :: gs) 0 [] []) as (x & Hx & Hsh).
    rewrite Hd in Hx. injection Hx as <-. destruct Hsh as (e & d & ->).
    intros [= <-]. discriminate.
  - intros [= <-] [= <-]. exists (g :: gs), p, j. split; [reflexivity|].
    split; [reflexivity|].
    apply derive_lists in Hd as [Hp Hj]. split; intros d Hin.
    + by destruct (Hp d Hin) as [[]|?].
    + by destruct (Hj d Hin) as [[]|?].
  - intros [= <-]. discriminate.
Qed.

(** C6, as the code has it: every primary descriptor of a returned file
    list is named after a discovered file, as the stem of that file, "_",
    the owner id and the extension of the file, and so contains the owner
    id; every derived descriptor belongs to a STEP descriptor of the same
    list and, when the owner id holds no "/", is named as the stem of that
    STEP file's path, "_", the owner id and ".pdf" or ".json", and so
    contains the owner id. *)
Theorem descriptor_names_embed_owner
    (E : env) (script_path : string) (user_id : option string)
    (r : job_result) (files : list descriptor) (d : descriptor) :
  fst (execute_freecad_script E script_path user_id) = Ret r ->
  jr_files r = Some files ->
  In d files ->
  ((d_type d = "step" \/ d_type d = "obj") /\
   (exists root file,
      In (root, file) (walk_user_dir E ++ walk_cad_output E) /\
      (endswith ".step" file || endswith ".obj" file) = true /\
      d_filename d = fst (splitext file) +:+ "_" +:+ default (uuid4 E) user_id
                       +:+ snd (splitext file)) /\
   py_in (default (uuid4 E) user_id) (d_filename d) = true)
  \/
  (d_type d = "pdf" /\
   exists g, In g files /\ d_type g = "step" /\
     (has_char "/" (default (uuid4 E) user_id) = false ->
      d_filename d = path_stem (d_path g) +:+ "_" +:+ default (uuid4 E) user_id +:+ ".pdf" /\
      py_in (default (uuid4 E) user_id) (d_filename d) = true))
  \/
  (d_type d = "json" /\
   exists g, In g files /\ d_type g = "step" /\
     (has_char "/" (default (uuid4 E) user_id) = false ->
      d_filename d = path_stem (d_path g) +:+ "_" +:+ default (uuid4 E) user_id +:+ ".json" /\
      py_in (default (uuid4 E) user_id) (d_filename d) = true)).
Proof.
  intros Hr Hfiles Hd. set (u := default (uuid4 E) user_id).
  destruct (success_files E script_path user_id r files Hr Hfiles)
    as (gen & pdfs & jsons & -> & Hloc & Hpdf & Hjson). fold u in Hloc, Hpdf, Hjson.
  apply in_app_or in Hd as [Hd|Hd]; [|apply in_app_or in Hd as [Hd|Hd]].
  - left. destruct (locate_list E u gen Hloc d Hd) as (root & file & Hin & Hext & Hty & Hname & _).
    split; [|split].
    + rewrite Hty. destruct (endswith ".step" file); [by left|by right].
    + by exists root, file.
    + rewrite Hname. apply owner_in_name.
  - right. left. destruct (Hpdf d Hd) as (g & Hg & Hstep & Hok & ->).
    split; [reflexivity|]. exists g. split; [apply in_or_app; by left|].
    split; [exact Hstep|]. intros Hu. cbn [d_filename].
    rewrite (pdf_filename _ _ _ Hok). cbn [from_option id].
    rewrite derived_name by (try assumption; try reflexivity; cbn; lia).
    split; [reflexivity|apply owner_in_name].
  - right. right. destruct (Hjson d Hd) as (g & Hg & Hstep & Hok & ->).
    split; [reflexivity|]. exists g. split; [apply in_or_app; by left|].
    split; [exact Hstep|]. intros Hu. cbn [d_filename].
    rewrite (json_filename _ _ _ Hok). cbn [from_option id].
    rewrite derived_name by (try assumption; try reflexivity; cbn; lia).
    split; [reflexivity|apply owner_in_name].
Qed.

(** The theorem at Scenario A: the derived PDF of [box_u1.step]. *)
Lemma descriptor_names_embed_owner_witness :
  exists g,
    In g [{| d_type := "step"; d_path := "/app/storage/box_u1.step";
             d_filename := "box_u1.step" |};
          {| d_type := "pdf"; d_path := "/app/storage/box_u1_u1.pdf";
             d_filename := "box_u1_u1.pdf" |};
          {| d_type := "json"; d_path := "/app/storage/box_u1_u1.json";
             d_filename := "box_u1_u1.json" |}] /\
    d_type g = "step" /\
    "box_u1_u1.pdf" = path_stem (d_path g) +:+ "_" +:+ "u1" +:+ ".pdf" /\
    py_in "u1" "box_u1_u1.pdf" = true.
Proof.
  destruct (descriptor_names_embed_owner Scenarios.scenario_a Scenarios.script (Some "u1")
              (success_result
                 [{| d_type := "step"; d_path := "/app/storage/box_u1.step";
                     d_filename := "box_u1.step" |};
                  {| d_type := "pdf"; d_path := "/app/storage/box_u1_u1.pdf";
                     d_filename := "box_u1_u1.pdf" |};
                  {| d_type := "json"; d_path := "/app/storage/box_u1_u1.json";
                     d_filename := "box_u1_u1.json" |}])
              [{| d_type := "step"; d_path := "/app/storage/box_u1.step";
                  d_filename := "box_u1.step" |};
               {| d_type := "pdf"; d_path := "/app/storage/box_u1_u1.pdf";
                  d_filename := "box_u1_u1.pdf" |};
               {| d_type := "json"; d_path := "/app/storage/box_u1_u1.json";
                  d_filename := "box_u1_u1.json" |}]
              {| d_type := "pdf"; d_path := "/app/storage/box_u1_u1.pdf";
                 d_filename := "box_u1_u1.pdf" |})
    as [(Hty & _)|[(_ & g & Hg & Hstep & H)|(Hty & _)]].
  - vm_compute. reflexivity.
  - reflexivity.
  - right. left. reflexivity.
  - destruct Hty as [Hty|Hty]; discriminate Hty.
  - destruct (H eq_refl) as [Hname Hin].
    exists g. split; [exact Hg|]. split; [exact Hstep|]. split; [exact Hname|exact Hin].
  - discriminate Hty.
Defined.

(** C6 as stated fails in two ways.  In Scenario A (owner "u1", discovered
    file [box.step]) the derived PDF descriptor is named "box_u1_u1.pdf":
    it is built from the stem of the promoted file, which already ends in
    the owner id, not from the stem of any discovered file.  And for owner
    "a/b" and a discovered [box.step], the JSON descriptor of the returned
    file list is named "b.json", which does not contain the owner id. *)
Lemma derived_name_can_miss_owner :
  (exists files d,
     fst (execute_freecad_script Scenarios.scenario_a Scenarios.script (Some "u1"))
       = Ret (success_result files) /\
     In d files /\
     d_type d = "pdf" /\
     d_filename d = "box_u1_u1.pdf" /\
     forall root file,
       In (root, file) (walk_user_dir Scenarios.scenario_a
                          ++ walk_cad_output Scenarios.scenario_a) ->
       d_filename d <> fst (splitext file) +:+ "_" +:+ "u1" +:+ ".pdf") /\
  (exists files d,
     fst (execute_freecad_script Scenarios.slash_world Scenarios.script
            (Some Scenarios.slash_owner)) = Ret (success_result files) /\
     In d files /\
     d_type d = "json" /\
     d_filename d = "b.json" /\
     py_in Scenarios.slash_owner (d_filename d) = false /\
     forall stem ext, d_filename d <> stem +:+ "_" +:+ Scenarios.slash_owner +:+ ext).
Proof.
  split.
  - exists [{| d_type := "step"; d_path := "/app/storage/box_u1.step";
               d_filename := "box_u1.step" |};
            {| d_type := "pdf"; d_path := "/app/storage/box_u1_u1.pdf";
               d_filename := "box_u1_u1.pdf" |};
            {| d_type := "json"; d_path := "/app/storage/box_u1_u1.json";
               d_filename := "box_u1_u1.json" |}],
           {| d_type := "pdf"; d_path := "/app/storage/box_u1_u1.pdf";
              d_filename := "box_u1_u1.pdf" |}.
    split; [vm_compute; reflexivity|].
    split; [right; left; reflexivity|].
    split; [reflexivity|]. split; [reflexivity|].
    intros root file [[= <- <-]|[[= <- <-]|[]]]; vm_compute; discriminate.
  - exists [{| d_type := "step"; d_path := "/app/storage/box_a/b.step";
               d_filename := "box_a/b.step" |};
            {| d_type := "json"; d_path := "/app/storage/b_a/b.json";
               d_filename := "b.json" |}],
           {| d_type := "json"; d_path := "/app/storage/b_a/b.json";
              d_filename := "b.json" |}.
    split; [vm_compute; reflexivity|].
    split; [right; left; reflexivity|].
    split; [reflexivity|]. split; [reflexivity|]. split; [reflexivity|].
    intros stem ext H.
    assert (py_in Scenarios.slash_owner "b.json" = true) as Habs.
    { cbn [d_filename] in H. rewrite H. apply owner_in_name. }
    discriminate Habs.
Qed.

(* ===================================================================== *)
(** * Further properties of the executor and of the channel              *)
(* ===================================================================== *)






Lemma execute_log E sp uid :
  snd (execute_try E sp uid) =
  snd (try_except (execute_body E sp (default (uuid4 E) uid))
                  (execute_handler E (default (uuid4 E) uid)))
  ++ snd (cleanup_script E sp).
Proof. reflexivity. Qed.




Lemma In_bind_r {A B} (x : effect) (m : M A) (f : A -> M B) a :
  fst m = Ret a -> In x (snd (f a)) -> In x (snd (bind m f)).
Proof. intros Hm Hx. rewrite snd_bind, Hm. apply in_or_app. by right. Qed.

Lemma In_bind_l {A B} (x : effect) (m : M A) (f : A -> M B) :
  In x (snd m) -> In x (snd (bind m f)).
Proof. intros Hx. rewrite snd_bind. apply in_or_app. by left. Qed.

Lemma publish_progress_ret lk u p s m e : fst (publish_progress lk u p s m e) = Ret tt.
Proof. by rewrite publish_progress_run. Qed.

Lemma publish_status_ret lk u s m e : fst (publish_status lk u s m e) = Ret tt.
Proof. by rewrite publish_status_run. Qed.

(** X2: an invocation that obtained the manager, whose CAD process exits
    with code 0 and whose artifact scan completes removes the working
    directory, whatever happens afterwards (no artifacts, failed
    conversion, success). *)
Theorem cleanup_when_scan_completes E sp uid out err gen :
  manager_available E ->
  makedirs_raises E (user_output_dir E (default (uuid4 E) uid)) = None ->
  cad_process E = ProcExit 0 out err ->
  fst (locate_artifacts E (default (uuid4 E) uid)) = Ret gen ->
  In (RemoveTree (user_output_dir E (default (uuid4 E) uid)))
     (snd (execute_freecad_script E sp uid)).
Proof.
  intros Ha Hmk Hproc Hloc.
  rewrite (execute_available _ _ _ Ha), execute_log. apply in_or_app. left.
  set (u := default (uuid4 E) uid) in *.
  assert (In (RemoveTree (user_output_dir E u)) (snd (execute_body E sp u))) as Hin.
  { unfold execute_body.
    eapply In_bind_r; [apply publish_status_ret|].
    eapply In_bind_r; [apply publish_progress_ret|].
    eapply In_bind_r.
    { unfold os_makedirs. fold (user_output_dir E u). by rewrite Hmk. }
    eapply In_bind_r; [apply publish_progress_ret|].
    eapply In_bind_r; [apply publish_progress_ret|].
    eapply In_bind_r; [apply publish_heartbeats_ret|].
    rewrite Hproc. cbn [Z.eqb negb].
    eapply In_bind_r; [apply publish_progress_ret|].
    eapply In_bind_r; [apply publish_progress_ret|].
    eapply In_bind_r; [exact Hloc|].
    apply In_bind_l. by left. }
  unfold try_except. destruct (execute_body E sp u) as [[r|e] l]; [exact Hin|].
  cbn [snd] in *. destruct (execute_handler E u e). cbn [snd].
  apply in_or_app. by left.
Qed.

(** The theorem at Scenario D, where the JSON conversion then fails. *)
Lemma cleanup_when_scan_completes_witness :
  In (RemoveTree "/app/storage/user_u1")
     (snd (execute_freecad_script Scenarios.scenario_d Scenarios.script (Some "u1"))).
Proof.
  apply (cleanup_when_scan_completes Scenarios.scenario_d Scenarios.script (Some "u1")
           "" ""
           [{| d_type := "step"; d_path := "/app/storage/box_u1.step";
               d_filename := "box_u1.step" |}]).
  - reflexivity.
  - reflexivity.
  - reflexivity.
  - vm_compute. reflexivity.
Defined.

(** X5 (Scenario C): when the manager was obtained, the process exits
    with 0 and the scan of both directories yields nothing, the invocation
    returns status "failed" with the error "No STEP or OBJ files were
    generated" and the diagnostics of the run. *)
Theorem no_artifacts_is_failure
    (E : env) (script_path : string) (user_id : option string)
    (stdout stderr : string) :
  manager_available E ->
  makedirs_raises E (user_output_dir E (default (uuid4 E) user_id)) = None ->
  cad_process E = ProcExit 0 stdout stderr ->
  fst (locate_artifacts E (default (uuid4 E) user_id)) = Ret [] ->
  fst (execute_freecad_script E script_path user_id)
  = Ret (failed_result "No STEP or OBJ files were generated"
           (Some (diagnostics stdout stderr))).
Proof.
  intros Ha Hmk Hproc Hloc.
  by rewrite (execute_available _ _ _ Ha), execute_result, execute_body_result,
    Hmk, Hproc, Hloc.
Qed.

Lemma no_artifacts_is_failure_witness :
  fst (execute_freecad_script Scenarios.scenario_c Scenarios.script (Some "u1"))
  = Ret (failed_result "No STEP or OBJ files were generated"
           (Some (DiagDetails "See stdout_tail/stderr_tail for details." ["done"] []))).
Proof.
  apply (no_artifacts_is_failure Scenarios.scenario_c Scenarios.script (Some "u1") "done" "").
  - reflexivity.
  - reflexivity.
  - reflexivity.
  - vm_compute. reflexivity.
Defined.

(** X7: publishing is a silent no-op while the channel is disconnected. *)
Theorem publish_is_noop_when_disconnected
    (lk : link) (user_id : string) (progress : Z) (status message : string)
    (error : option string) :
  connected lk = false ->
  publish_progress lk user_id progress status message error = (Ret tt, []) /\
  publish_status lk user_id status message error = (Ret tt, []).
Proof. intros H. unfold publish_progress, publish_status. by rewrite H. Qed.

Lemma publish_is_noop_when_disconnected_witness :
  publish_progress Scenarios.link_down "u1" 100 "finished" "done" None = (Ret tt, []) /\
  publish_status Scenarios.link_down "u1" "finished" "done" None = (Ret tt, []).
Proof.
  apply (publish_is_noop_when_disconnected Scenarios.link_down "u1" 100 "finished" "done" None).
  reflexivity.
Defined.

(** X6: [_on_message] merges an event into the record of the owner named
    by the last topic level: a field present in the event replaces the
    stored one, an absent field keeps its prior value (or the default of a
    fresh record), the record is stamped with the receipt time, and the
    records of other owners are untouched. *)
Theorem on_message_merges
    (received_at topic : string) (data : gmap string jval)
    (progress_data : gmap string progress_record) :
  3 <= length (split_on "/" topic) ->
  exists r',
    _on_message received_at topic (Some (JObj data)) progress_data
      !! default "" (last (split_on "/" topic)) = Some r' /\
    pr_progress r' =
      default (pr_progress (default fresh_record
                 (progress_data !! default "" (last (split_on "/" topic)))))
              (data !! "progress") /\
    pr_status r' =
      default (pr_status (default fresh_record
                 (progress_data !! default "" (last (split_on "/" topic)))))
              (data !! "status") /\
    pr_message r' =
      default (pr_message (default fresh_record
                 (progress_data !! default "" (last (split_on "/" topic)))))
              (data !! "message") /\
    pr_error r' =
      default (pr_error (default fresh_record
                 (progress_data !! default "" (last (split_on "/" topic)))))
              (data !! "error") /\
    pr_updated_at r' = JStr received_at /\
    forall other, other <> default "" (last (split_on "/" topic)) ->
      _on_message received_at topic (Some (JObj data)) progress_data !! other
      = progress_data !! other.
Proof.
  intros Hlen. unfold _on_message.
  apply Nat.leb_le in Hlen. rewrite Hlen.
  set (u := default "" (last (split_on "/" topic))).
  set (r0 := default fresh_record (progress_data !! u)).
  rewrite lookup_insert_eq. eexists. split; [reflexivity|].
  unfold merge_key.
  repeat split;
    try (destruct (data !! "error"), (data !! "message"), (data !! "status"),
           (data !! "progress"); reflexivity).
  intros other Hne. by rewrite lookup_insert_ne.
Qed.

Lemma on_message_merges_witness :
  exists r',
    _on_message Scenarios.received_at "freecad/status/u1"
      (Some (JObj (status_data_of Scenarios.link_up "u1" "finished" "done" None))) ∅
      !! "u1" = Some r' /\
    pr_status r' = JStr "finished" /\ pr_progress r' = JInt 0 /\
    pr_error r' = JNull /\ pr_updated_at r' = JStr Scenarios.received_at.
Proof.
  destruct (on_message_merges Scenarios.received_at "freecad/status/u1"
              (status_data_of Scenarios.link_up "u1" "finished" "done" None) ∅)
    as (r' & Hr & Hp & Hs & _ & He & Hu & _).
  - cbn. lia.
  - exists r'. split; [exact Hr|].
    split; [rewrite Hs; vm_compute; reflexivity|].
    split; [rewrite Hp; vm_compute; reflexivity|].
    split; [rewrite He; vm_compute; reflexivity|exact Hu].
Defined.

(** The theorem of [JobResult.get] at Scenario B, with a finished job of
    another owner ahead of it in the registry. *)
Lemma finished_job_is_success_witness :
  exists body,
    App.JobResult_get
      (Scenarios.api
         [{| App.j_id := "job-0"; App.j_meta := <["user_id" := "u2"]> ∅;
             App.j_status := "finished"; App.j_result := None;
             App.j_ended_at := None |};
          Scenarios.job_of Scenarios.scenario_b] []) "u1" false
    = App.Returned 200 body /\
    App.rb_status body = "success" /\
    App.rb_job_id body = Some "job-1".
Proof.
  eexists. split.
  - apply (finished_job_is_success _ "u1" (Scenarios.job_of Scenarios.scenario_b)
             ["job-0"] []).
    + reflexivity.
    + intros job_id [<-|[]]. vm_compute. reflexivity.
    + vm_compute. reflexivity.
    + vm_compute. reflexivity.
    + vm_compute. reflexivity.
  - split; reflexivity.
Defined.

(* ===================================================================== *)
(** * The outcome of a run does not depend on the Progress Channel       *)
(* ===================================================================== *)

Lemma fs_effects_app l1 l2 : fs_effects (l1 ++ l2) = fs_effects l1 ++ fs_effects l2.
Proof. apply List.filter_app. Qed.

Lemma same_outcome_refl {A} (m : M A) : same_outcome m m.
Proof. by split. Qed.

Lemma same_outcome_bind {A B} (m m' : M A) (f f' : A -> M B) :
  same_outcome m m' -> (forall a, same_outcome (f a) (f' a)) ->
  same_outcome (bind m f) (bind m' f').
Proof.
  intros [H1 H2] Hf. unfold same_outcome.
  rewrite !fst_bind, !snd_bind, !fs_effects_app, H2, <- H1.
  destruct (fst m) as [a|e]; [|by split].
  destruct (Hf a) as [-> ->]. by split.
Qed.

Lemma same_outcome_try_except {A} (m m' : M A) (h h' : exn -> M A) :
  same_outcome m m' -> (forall e, same_outcome (h e) (h' e)) ->
  same_outcome (try_except m h) (try_except m' h').
Proof.
  intros [H1 H2] Hh. destruct m as [[a|e] l], m' as [[a'|e'] l']; cbn [fst snd] in H1, H2;
    try discriminate.
  - injection H1 as ->. by split.
  - injection H1 as ->. unfold try_except.
    destruct (Hh e') as [H3 H4]. destruct (h e') as [r1 l1], (h' e') as [r2 l2].
    cbn [fst snd] in *. split; [exact H3|]. cbn [snd]. by rewrite !fs_effects_app, H2, H4.
Qed.

Lemma same_outcome_try_finally {A} (m m' : M A) (c c' : M unit) :
  same_outcome m m' -> same_outcome c c' ->
  same_outcome (try_finally m c) (try_finally m' c').
Proof.
  intros [H1 H2] [_ H4]. unfold try_finally. split; [exact H1|].
  cbn [snd]. by rewrite !fs_effects_app, H2, H4.
Qed.

Lemma same_publish_progress lk lk' u p s m e :
  same_outcome (publish_progress lk u p s m e) (publish_progress lk' u p s m e).
Proof.
  unfold publish_progress.
  repeat match goal with |- context [if ?b then _ else _] => destruct b end;
    by split.
Qed.

Lemma same_publish_status lk lk' u s m e :
  same_outcome (publish_status lk u s m e) (publish_status lk' u s m e).
Proof.
  unfold publish_status.
  repeat match goal with |- context [if ?b then _ else _] => destruct b end;
    by split.
Qed.

Lemma promote_with_mqtt E lk u c entries : forall acc,
  promote (with_mqtt E lk) u c entries acc = promote E u c entries acc.
Proof.
  induction entries as [|[root file] entries IH]; intros acc; [reflexivity|].
  cbn [promote]. rewrite !IH. reflexivity.
Qed.

Lemma same_locate E lk u :
  same_outcome (locate_artifacts (with_mqtt E lk) u) (locate_artifacts E u).
Proof.
  unfold locate_artifacts. rewrite promote_with_mqtt.
  change (walk_user_dir (with_mqtt E lk)) with (walk_user_dir E).
  apply same_outcome_bind; [apply same_outcome_refl|].
  intros [|g gs]; [|apply same_outcome_refl].
  apply same_outcome_bind; [apply same_publish_progress|]. intros _.
  change (cad_output_exists (with_mqtt E lk)) with (cad_output_exists E).
  destruct (cad_output_exists E); [|apply same_outcome_refl].
  rewrite promote_with_mqtt. apply same_outcome_refl.
Qed.

Lemma same_derive E lk u n files : forall i p j,
  same_outcome (derive (with_mqtt E lk) u n i files p j) (derive E u n i files p j).
Proof.
  induction files as [|g files IH]; intros i p j; [apply same_outcome_refl|].
  cbn [derive]. destruct (String.eqb (d_type g) "step"); [|apply IH].
  apply same_outcome_bind; [apply same_publish_progress|]. intros _.
  change (generate_json_from_step (with_mqtt E lk) (d_path g) u)
    with (generate_json_from_step E (d_path g) u).
  change (generate_pdf_from_step (with_mqtt E lk) (d_path g) u)
    with (generate_pdf_from_step E (d_path g) u).
  destruct (String.eqb (cr_status (generate_json_from_step E (d_path g) u)) "success");
    [apply IH|].
  apply same_outcome_bind; [apply same_publish_status|]. intros _.
  apply same_outcome_bind; [apply same_publish_progress|]. intros _.
  apply same_outcome_refl.
Qed.

Lemma same_heartbeats E lk u hbs :
  same_outcome (publish_heartbeats (with_mqtt E lk) u hbs) (publish_heartbeats E u hbs).
Proof.
  induction hbs as [|hb hbs IH]; [apply same_outcome_refl|].
  cbn [publish_heartbeats].
  apply same_outcome_bind; [apply same_publish_progress|]. intros _. exact IH.
Qed.

Lemma same_body E lk sp u :
  same_outcome (execute_body (with_mqtt E lk) sp u) (execute_body E sp u).
Proof.
  unfold execute_body.
  apply same_outcome_bind; [apply same_publish_status|]. intros _.
  apply same_outcome_bind; [apply same_publish_progress|]. intros _.
  apply same_outcome_bind; [apply same_outcome_refl|]. intros _.
  apply same_outcome_bind; [apply same_publish_progress|]. intros _.
  apply same_outcome_bind; [apply same_publish_progress|]. intros _.
  apply same_outcome_bind; [apply same_heartbeats|]. intros _.
  change (cad_process (with_mqtt E lk)) with (cad_process E).
  destruct (cad_process E) as [e| |rc out err]; [apply same_outcome_refl| |].
  - apply same_outcome_bind; [apply same_publish_status|]. intros _.
    apply same_outcome_bind; [apply same_publish_progress|]. intros _.
    apply same_outcome_refl.
  - destruct (negb (rc =? 0)%Z).
    + apply same_outcome_bind; [apply same_publish_status|]. intros _.
      apply same_outcome_bind; [apply same_publish_progress|]. intros _.
      apply same_outcome_refl.
    + apply same_outcome_bind; [apply same_publish_progress|]. intros _.
      apply same_outcome_bind; [apply same_publish_progress|]. intros _.
      apply same_outcome_bind; [apply same_locate|]. intros gen.
      apply same_outcome_bind; [apply same_outcome_refl|]. intros _.
      destruct gen as [|g gs].
      * apply same_outcome_bind; [apply same_publish_status|]. intros _.
        apply same_outcome_bind; [apply same_publish_progress|]. intros _.
        apply same_outcome_refl.
      * apply same_outcome_bind; [apply same_publish_progress|]. intros _.
        apply same_outcome_bind; [apply same_derive|]. intros [f|[p j]];
          [apply same_outcome_refl|].
        apply same_outcome_bind; [apply same_publish_progress|]. intros _.
        apply same_outcome_bind; [apply same_publish_status|]. intros _.
        apply same_outcome_refl.
Qed.

(** X8: the Progress Channel is best effort.  Whatever the state of the
    link (connected or not, publishes accepted or refused), an invocation
    returns the same dict and performs the same file-system actions in the
    same order; only the published messages differ. *)
Theorem outcome_independent_of_channel
    (E : env) (lk : link) (script_path : string) (user_id : option string) :
  fst (execute_freecad_script (with_mqtt E lk) script_path user_id)
    = fst (execute_freecad_script E script_path user_id) /\
  fs_effects (snd (execute_freecad_script (with_mqtt E lk) script_path user_id))
    = fs_effects (snd (execute_freecad_script E script_path user_id)).
Proof.
  assert (same_outcome (execute_freecad_script (with_mqtt E lk) script_path user_id)
                       (execute_freecad_script E script_path user_id)) as H; [|exact H].
  destruct (manager_cases E) as [Ha|[e He]].
  2:{ rewrite (execute_unavailable E _ _ e He),
        (execute_unavailable (with_mqtt E lk) _ _ e); [apply same_outcome_refl|].
      revert He. unfold get_mqtt_manager, MQTTProgressManager_init.
      cbn [manager_built int_max_str_digits MQTT_BROKER new_client_raises mqtt with_mqtt].
      destruct (manager_built E); [discriminate|].
      destruct (broker_port _ _); [|done].
      destruct (new_client_raises E); [done|discriminate]. }
  rewrite (execute_available E _ _ Ha), (execute_available (with_mqtt E lk)).
  2:{ revert Ha. unfold manager_available, get_mqtt_manager, MQTTProgressManager_init.
      cbn [manager_built int_max_str_digits MQTT_BROKER new_client_raises mqtt with_mqtt].
      destruct (manager_built E); [done|].
      destruct (broker_port _ _); [|discriminate].
      destruct (new_client_raises E); [discriminate|done]. }
  unfold execute_try.
  change (uuid4 (with_mqtt E lk)) with (uuid4 E).
  apply same_outcome_try_finally; [|apply same_outcome_refl].
  apply same_outcome_try_except; [apply same_body|].
  intros e. unfold execute_handler.
  apply same_outcome_bind; [apply same_publish_status|]. intros _.
  apply same_outcome_bind; [apply same_publish_progress|]. intros _.
  apply same_outcome_refl.
Qed.

(* ===================================================================== *)
(** * The percentages a run publishes                                    *)
(* ===================================================================== *)

Lemma progress_values_app l1 l2 :
  progress_values (l1 ++ l2) = progress_values l1 ++ progress_values l2.
Proof. apply omap_app. Qed.

Lemma ascending_bounds lo l hi : ascending lo l hi -> (lo <= hi)%Z.
Proof.
  revert lo. induction l as [|p l IH]; intros lo H; [exact H|].
  destruct H as [H1 H2]. apply IH in H2. lia.
Qed.

Lemma ascending_app a l1 b l2 c :
  ascending a l1 b -> ascending b l2 c -> ascending a (l1 ++ l2) c.
Proof.
  revert a. induction l1 as [|p l1 IH]; intros a H1 H2.
  - cbn in *. destruct l2 as [|q l2]; cbn in *; [lia|]. split; [lia|tauto].
  - destruct H1 as [Hp H1]. split; [exact Hp|]. by apply IH.
Qed.

Lemma ascending_weaken a a' l b b' :
  (a' <= a)%Z -> (b <= b')%Z -> ascending a l b -> ascending a' l b'.
Proof.
  revert a a'. induction l as [|p l IH]; intros a a' Ha Hb H; cbn in *; [lia|].
  destruct H as [Hp H]. split; [lia|]. apply (IH p p); [lia|exact Hb|exact H].
Qed.

Lemma ascending_lookup lo l hi : forall i j p q,
  ascending lo l hi -> i <= j -> l !! i = Some p -> l !! j = Some q ->
  (lo <= p /\ p <= q /\ q <= hi)%Z.
Proof.
  revert lo. induction l as [|x l IH]; intros lo i j p q H Hij Hi Hj; [discriminate|].
  destruct H as [Hx H]. destruct i as [|i].
  - injection Hi as <-. destruct j as [|j].
    + injection Hj as <-. apply ascending_bounds in H. lia.
    + destruct (IH x j j q q H (le_n _) Hj Hj) as (? & ? & ?). lia.
  - destruct j as [|j]; [lia|].
    destruct (IH x i j p q H ltac:(lia) Hi Hj) as (? & ? & ?). lia.
Qed.

Lemma progress_key lk u p s m e :
  progress_data_of lk u p s m e !! "progress" = Some (JInt p).
Proof.
  unfold progress_data_of, with_error.
  destruct e as [x|]; [destruct (truthy (Some x))|]; by simplify_map_eq.
Qed.

Lemma status_has_no_progress lk u s m e :
  status_data_of lk u s m e !! "progress" = None.
Proof.
  unfold status_data_of, with_error.
  destruct e as [x|]; [destruct (truthy (Some x))|]; by simplify_map_eq.
Qed.

Lemma progress_values_publish topic data :
  progress_values [Publish topic data] =
  match data !! "progress" with
  | Some (JInt p) => [p]
  | _ => []
  end.
Proof.
  unfold progress_values. cbn. by destruct (data !! "progress") as [[]|].
Qed.

Lemma progress_values_progress_log lk u p s m e :
  progress_values (progress_log lk u p s m e) =
  if connected lk && accepts lk ("freecad/progress/" +:+ u) then [p] else [].
Proof.
  unfold progress_log, publish_progress.
  destruct (connected lk); [|reflexivity]. cbn [negb andb].
  destruct (accepts lk _); [|reflexivity].
  cbn [emit snd]. by rewrite progress_values_publish, progress_key.
Qed.

Lemma progress_values_status_log lk u s m e :
  progress_values (status_log lk u s m e) = [].
Proof.
  unfold status_log, publish_status.
  destruct (connected lk); [|reflexivity]. cbn [negb].
  destruct (accepts lk _); [|reflexivity].
  cbn [emit snd]. by rewrite progress_values_publish, status_has_no_progress.
Qed.

Lemma ascending_progress_log lo hi lk u p s m e :
  (lo <= p <= hi)%Z -> ascending lo (progress_values (progress_log lk u p s m e)) hi.
Proof.
  intros H. rewrite progress_values_progress_log.
  destruct (_ && _); cbn; lia.
Qed.

Lemma ascending_heartbeats E u stop_at fuel : forall t v,
  (25 <= v <= 35)%Z ->
  ascending v
    (progress_values (snd (publish_heartbeats E u (heartbeat_loop fuel stop_at t v)))) 35.
Proof.
  induction fuel as [|fuel IH]; intros t v Hv; [cbn; lia|].
  cbn [heartbeat_loop]. destruct (stop_at <=? t)%nat; [cbn; lia|].
  cbn [publish_heartbeats hb_progress hb_status hb_message].
  rewrite publish_progress_run, bind_ret_l. cbn [snd]. rewrite progress_values_app.
  apply (ascending_app _ _ (Z.min (v + 2) 35)).
  - apply ascending_progress_log. lia.
  - destruct (stop_at <=? t + 5)%nat; [cbn; lia|]. apply IH. lia.
Qed.

Lemma promote_publishes_nothing E u c entries : forall acc,
  progress_values (snd (promote E u c entries acc)) = [].
Proof.
  induction entries as [|[root file] entries IH]; intros acc; [reflexivity|].
  cbn [promote]. destruct (_ || _); [|apply IH].
  rewrite snd_bind, progress_values_app.
  unfold shutil_copy2. destruct (copy2_raises E _ _); [reflexivity|].
  cbn [emit fst snd]. rewrite snd_bind, progress_values_app.
  assert (forall m : M unit,
            fst m = Ret tt -> progress_values (snd m) = [] ->
            progress_values (snd m) ++
            progress_values
              match fst m with
              | Ret _ => snd (promote E u c entries
                  (acc ++ [{| d_type := if endswith ".step" file then "step" else "obj";
                              d_path := os_path_join (STORAGE_PATH E)
                                (fst (splitext file) +:+ "_" +:+ u +:+ snd (splitext file));
                              d_filename :=
                                fst (splitext file) +:+ "_" +:+ u +:+ snd (splitext file) |}]))
              | Raise _ => []
              end = []) as Hm.
  { intros m -> ->. apply IH. }
  cbn [progress_values omap app]. apply Hm.
  - destruct c; [|reflexivity]. unfold os_remove, try_except.
    destruct (remove_raises E _); reflexivity.
  - destruct c; [|reflexivity]. unfold os_remove, try_except.
    destruct (remove_raises E _); reflexivity.
Qed.

Lemma ascending_locate E u :
  ascending 50 (progress_values (snd (locate_artifacts E u))) 70.
Proof.
  unfold locate_artifacts. rewrite snd_bind, progress_values_app, promote_publishes_nothing.
  destruct (fst (promote E u false (walk_user_dir E) [])) as [[|g gs]|e];
    [|cbn; lia|cbn; lia].
  rewrite publish_progress_run, bind_ret_l. cbn [snd app]. rewrite progress_values_app.
  apply (ascending_app _ _ 60); [apply ascending_progress_log; lia|].
  destruct (cad_output_exists E); [|cbn; lia].
  rewrite promote_publishes_nothing. cbn. lia.
Qed.

Lemma file_progress_mono (i n : nat) :
  (70 + Z.of_nat i * 20 / Z.of_nat n <= 70 + Z.of_nat (i + 1) * 20 / Z.of_nat n)%Z.
Proof.
  destruct n as [|n]; [cbn; rewrite !Z.div_0_r; lia|].
  apply Z.add_le_mono_l, Z.div_le_mono; lia.
Qed.

Lemma file_progress_bound (i n : nat) :
  i <= n -> (70 + Z.of_nat i * 20 / Z.of_nat n <= 90)%Z.
Proof.
  intros H. destruct n as [|n]; [rewrite Z.div_0_r; lia|].
  assert (Z.of_nat i * 20 / Z.of_nat (S n) <= 20)%Z; [|lia].
  apply Z.div_le_upper_bound; lia.
Qed.

Lemma ascending_derive E u n files : forall i p j x,
  i + length files = n ->
  fst (derive E u n i files p j) = Ret (inr x) ->
  ascending (70 + Z.of_nat i * 20 / Z.of_nat n)
    (progress_values (snd (derive E u n i files p j))) 90.
Proof.
  induction files as [|g files IH]; intros i p j x Hn H.
  - cbn. apply file_progress_bound. cbn in Hn. lia.
  - cbn [length] in Hn. cbn [derive] in *.
    destruct (String.eqb (d_type g) "step").
    + revert H. rewrite publish_progress_run, bind_ret_l. cbn [fst snd].
      destruct (String.eqb (cr_status (generate_json_from_step E (d_path g) u)) "success").
      * intros H. rewrite progress_values_app.
        apply (ascending_app _ _ (70 + Z.of_nat (i + 1) * 20 / Z.of_nat n)).
        -- apply ascending_progress_log. split; [apply file_progress_mono|lia].
        -- eapply IH; [lia|exact H].
      * norm_pub. discriminate.
    + eapply ascending_weaken; [apply file_progress_mono|reflexivity|].
      eapply IH; [lia|exact H].
Qed.

Lemma ascends_bind_gen {A} lo mid hi (m : M A) (f : A -> M job_result) :
  (forall a r, fst m = Ret a -> fst (f a) = Ret r -> jr_status r = "success" ->
     ascending lo (progress_values (snd m)) mid /\
     ascending mid (progress_values (snd (f a))) hi) ->
  ascends lo hi (bind m f).
Proof.
  intros H r Hr Hs. rewrite fst_bind in Hr. rewrite snd_bind, progress_values_app.
  destruct (fst m) as [a|e] eqn:Hm; [|discriminate].
  destruct (H a r eq_refl Hr Hs) as [H1 H2]. by apply (ascending_app _ _ mid).
Qed.

Lemma ascends_bind {A} lo mid hi (m : M A) (f : A -> M job_result) :
  ascending lo (progress_values (snd m)) mid ->
  (forall a, fst m = Ret a -> ascends mid hi (f a)) ->
  ascends lo hi (bind m f).
Proof.
  intros H1 H2. apply (ascends_bind_gen lo mid hi). intros a r Ha Hr Hs.
  split; [exact H1|]. by apply (H2 a Ha r).
Qed.

Lemma ascends_progress lo p hi lk u s msg e (k : M job_result) :
  (lo <= p)%Z -> ascends p hi k ->
  ascends lo hi (publish_progress lk u p s msg e ;; k).
Proof.
  intros Hp Hk. apply (ascends_bind lo p hi); [|intros _ _; exact Hk].
  rewrite publish_progress_run. apply ascending_progress_log. lia.
Qed.

Lemma ascends_status lo hi lk u s msg e (k : M job_result) :
  ascends lo hi k -> ascends lo hi (publish_status lk u s msg e ;; k).
Proof.
  intros Hk. apply (ascends_bind lo lo hi); [|intros _ _; exact Hk].
  rewrite publish_status_run. cbn [snd]. rewrite progress_values_status_log. cbn. lia.
Qed.

Lemma ascends_failure lo hi lk u err e d :
  ascends lo hi
    (publish_status lk u "failed" err e ;;
     publish_progress lk u 0 "failed" err e ;;
     ret (failed_result err d)).
Proof. intros r. norm_pub. intros [= <-]. discriminate. Qed.

Lemma body_ascending E sp u : ascends 0 100 (execute_body E sp u).
Proof.
  unfold execute_body.
  apply ascends_status, ascends_progress; [lia|].
  apply (ascends_bind 0 0 100).
  { unfold os_makedirs. destruct (makedirs_raises E _); cbn; lia. }
  intros _ _.
  apply ascends_progress; [lia|]. apply ascends_progress; [lia|].
  apply (ascends_bind 20 35 100).
  { eapply ascending_weaken; [| |apply ascending_heartbeats]; lia. }
  intros _ _.
  destruct (cad_process E) as [e| |rc out err];
    [intros r; discriminate|apply ascends_failure|].
  destruct (negb (rc =? 0)%Z); [apply ascends_failure|].
  apply ascends_progress; [lia|]. apply ascends_progress; [lia|].
  apply (ascends_bind 50 70 100); [apply ascending_locate|]. intros gen _.
  apply (ascends_bind 70 70 100); [cbn; lia|]. intros _ _.
  destruct gen as [|g gs]; [apply ascends_failure|].
  apply ascends_progress; [lia|].
  apply (ascends_bind_gen 70 90 100). intros d r Hd Hr Hs.
  destruct d as [failure|[p j]].
  { cbn in Hr. injection Hr as ->.
    destruct (derive_returns E u (length (g :: gs)) (g :: gs) 0 [] []) as (x & Hx & Hsh).
    rewrite Hd in Hx. injection Hx as <-. destruct Hsh as (e & d & ->). discriminate. }
  split.
  { eapply ascending_weaken; [| |eapply ascending_derive; [|exact Hd]].
    - change (Z.of_nat 0 * 20)%Z with 0%Z.
      pose proof (Z.div_pos 0 (Z.of_nat (length (g :: gs))) ltac:(lia)
                    ltac:(cbn [length]; lia)). lia.
    - lia.
    - cbn [length]. lia. }
  revert r Hr Hs. apply ascends_progress; [lia|]. apply ascends_status.
  intros r _ _. cbn. lia.
Qed.

Lemma cleanup_has_no_progress E sp : progress_values (snd (cleanup_script E sp)) = [].
Proof.
  pose proof (cleanup_silent E sp) as H.
  induction (snd (cleanup_script E sp)) as [|ef l IH]; [reflexivity|].
  inversion H as [|? ? Hef Hl]; subst. cbn [progress_values omap].
  destruct ef; try (apply IH; assumption). destruct Hef.
Qed.

(** X9: in an invocation that returns success, the percentages published
    on the Progress Channel never decrease and stay between 0 and 100: of
    any two published in this order, the earlier is at most the later; and
    when the link is connected and accepts the topic, the last one is 100. *)
Theorem progress_never_decreases_on_success
    (E : env) (script_path : string) (user_id : option string) (r : job_result) :
  fst (execute_freecad_script E script_path user_id) = Ret r ->
  jr_status r = "success" ->
  (forall i j p q, i <= j ->
     progress_values (snd (execute_freecad_script E script_path user_id)) !! i = Some p ->
     progress_values (snd (execute_freecad_script E script_path user_id)) !! j = Some q ->
     (0 <= p /\ p <= q /\ q <= 100)%Z) /\
  (connected (mqtt E) = true ->
   (forall topic, accepts (mqtt E) topic = true) ->
   last (progress_values (snd (execute_freecad_script E script_path user_id))) = Some 100%Z).
Proof.
  intros Hres Hs.
  pose proof (execute_returned_available _ _ _ _ Hres) as Hm.
  rewrite (execute_available _ _ _ Hm) in *.
  rewrite execute_result in Hres.
  destruct (fst (execute_body E script_path _)) as [r'|e] eqn:Hbody;
    [injection Hres as ->|injection Hres as <-; discriminate].
  rewrite (execute_log_returned E script_path user_id r Hbody), progress_values_app,
    cleanup_has_no_progress, app_nil_r.
  split.
  - intros i j p q Hij Hi Hj.
    eapply ascending_lookup; [|exact Hij|exact Hi|exact Hj].
    by apply (body_ascending E script_path _ r).
  - intros Hc Ha.
    destruct (execute_body_announces E script_path _ r Hbody Hs) as (pre & m1 & m2 & -> & _).
    rewrite !progress_values_app, progress_values_status_log, app_nil_r,
      progress_values_progress_log, Hc, Ha.
    cbn [andb]. apply last_snoc.
Qed.

(** The theorem at Scenario A: 0, 10, 20, the heartbeats 27, 29, 31, then
    40, 50, 70, 90 and 100. *)
Lemma progress_never_decreases_on_success_witness :
  progress_values
    (snd (execute_freecad_script Scenarios.scenario_a Scenarios.script (Some "u1")))
  = [0; 10; 20; 27; 29; 31; 40; 50; 70; 90; 100]%Z /\
  last (progress_values
          (snd (execute_freecad_script Scenarios.scenario_a Scenarios.script (Some "u1"))))
  = Some 100%Z.
Proof.
  split; [vm_compute; reflexivity|].
  refine (proj2 (progress_never_decreases_on_success Scenarios.scenario_a Scenarios.script
                   (Some "u1") _ _ _) _ _).
  - vm_compute. reflexivity.
  - reflexivity.
  - reflexivity.
  - intros topic. reflexivity.
Defined.

(** ** Every percentage lies between 0 and 100 *)

Lemma in_range_progress_log lk u p s m e :
  (0 <= p <= 100)%Z -> Forall in_range (progress_log lk u p s m e).
Proof.
  intros Hp. unfold progress_log, publish_progress.
  destruct (negb (connected lk)); [constructor|].
  destruct (accepts lk _); [|constructor].
  repeat constructor. unfold in_range, progress_of. by rewrite progress_key.
Qed.

Lemma in_range_status_log lk u s m e : Forall in_range (status_log lk u s m e).
Proof.
  unfold status_log, publish_status.
  destruct (negb (connected lk)); [constructor|].
  destruct (accepts lk _); [|constructor].
  repeat constructor. unfold in_range, progress_of. by rewrite status_has_no_progress.
Qed.

Lemma in_range_heartbeats E u stop_at fuel : forall t v,
  (25 <= v <= 35)%Z ->
  Forall in_range (snd (publish_heartbeats E u (heartbeat_loop fuel stop_at t v))).
Proof.
  induction fuel as [|fuel IH]; intros t v Hv; [constructor|].
  cbn [heartbeat_loop]. destruct (stop_at <=? t)%nat; [constructor|].
  cbn [publish_heartbeats hb_progress hb_status hb_message].
  apply Forall_bind.
  - rewrite publish_progress_run. apply in_range_progress_log. lia.
  - intros _ _. destruct (stop_at <=? t + 5)%nat; [constructor|]. apply IH. lia.
Qed.

Lemma in_range_promote E u c entries : forall acc,
  Forall in_range (snd (promote E u c entries acc)).
Proof.
  induction entries as [|[root file] entries IH]; intros acc; [constructor|].
  cbn [promote]. destruct (_ || _); [|apply IH].
  apply Forall_bind.
  { unfold shutil_copy2. destruct (copy2_raises E _ _); repeat constructor. }
  intros _ _. apply Forall_bind; [|intros _ _; apply IH].
  destruct c; [|constructor]. unfold os_remove, try_except.
  destruct (remove_raises E _); repeat constructor.
Qed.

Lemma in_range_locate E u : Forall in_range (snd (locate_artifacts E u)).
Proof.
  unfold locate_artifacts. apply Forall_bind; [apply in_range_promote|].
  intros [|g gs] _; [|constructor].
  apply Forall_bind; [rewrite publish_progress_run; apply in_range_progress_log; lia|].
  intros _ _. destruct (cad_output_exists E); [apply in_range_promote|constructor].
Qed.

Lemma in_range_derive E u n files : forall i p j,
  i + length files = n ->
  Forall in_range (snd (derive E u n i files p j)).
Proof.
  induction files as [|g files IH]; intros i p j Hn; [constructor|].
  cbn [length] in Hn. cbn [derive].
  destruct (String.eqb (d_type g) "step"); [|apply IH; lia].
  apply Forall_bind.
  { rewrite publish_progress_run. apply in_range_progress_log.
    pose proof (file_progress_bound (i + 1) n ltac:(lia)).
    pose proof (file_progress_mono i n).
    assert (0 <= Z.of_nat i * 20 / Z.of_nat n)%Z; [|lia].
    destruct n as [|n]; [lia|]. apply Z.div_pos; lia. }
  intros _ _.
  destruct (String.eqb (cr_status (generate_json_from_step E (d_path g) u)) "success");
    [apply IH; lia|].
  apply Forall_bind; [rewrite publish_status_run; apply in_range_status_log|]. intros _ _.
  apply Forall_bind; [rewrite publish_progress_run; apply in_range_progress_log; lia|].
  intros _ _. constructor.
Qed.

Ltac in_range_step :=
  first
    [ apply Forall_bind;
      [ first [ rewrite publish_status_run; apply in_range_status_log
              | rewrite publish_progress_run; apply in_range_progress_log; lia ]
      | intros _ _ ]
    | constructor ].

Lemma in_range_body E sp u : Forall in_range (snd (execute_body E sp u)).
Proof.
  unfold execute_body. do 2 in_range_step.
  apply Forall_bind.
  { unfold os_makedirs. destruct (makedirs_raises E _); repeat constructor. }
  intros _ _. do 2 in_range_step.
  apply Forall_bind; [apply in_range_heartbeats; lia|]. intros _ _.
  destruct (cad_process E) as [e| |rc out err]; [constructor|repeat in_range_step|].
  destruct (negb (rc =? 0)%Z); [repeat in_range_step|].
  do 2 in_range_step.
  apply Forall_bind; [apply in_range_locate|]. intros gen _.
  apply Forall_bind; [repeat constructor|]. intros _ _.
  destruct gen as [|g gs]; [repeat in_range_step|].
  in_range_step.
  apply Forall_bind; [by apply in_range_derive|].
  intros [f|[p j]] _; repeat in_range_step.
Qed.

(** X10: whatever happens in an invocation, every percentage it publishes
    lies between 0 and 100. *)
Theorem progress_stays_in_range
    (E : env) (script_path : string) (user_id : option string) (p : Z) :
  In p (progress_values (snd (execute_freecad_script E script_path user_id))) ->
  (0 <= p <= 100)%Z.
Proof.
  intros Hin.
  assert (Forall in_range (snd (execute_freecad_script E script_path user_id))) as Hall.
  { destruct (execute_log_cases E script_path user_id) as [->| ->]; [constructor|].
    rewrite execute_log. apply Forall_app. split.
    - pose proof (in_range_body E script_path (default (uuid4 E) user_id)) as Hb.
      unfold try_except. destruct (execute_body E script_path _) as [[r|e] l]; [exact Hb|].
      assert (Forall in_range (snd (execute_handler E (default (uuid4 E) user_id) e))) as Hh.
      { unfold execute_handler. repeat in_range_step. }
      destruct (execute_handler E _ e) as [r' l']. cbn [snd] in *.
      apply Forall_app. by split.
    - pose proof (cleanup_silent E script_path) as Hs.
      eapply Forall_impl; [exact Hs|]. intros [] Hx; try exact I. destruct Hx. }
  apply list_elem_of_In in Hin. unfold progress_values in Hin.
  apply list_elem_of_omap in Hin as (ef & Hef & Hp).
  rewrite Forall_forall in Hall. specialize (Hall ef Hef).
  unfold in_range in Hall. by rewrite Hp in Hall.
Qed.

(** The theorem at Scenario B, whose last percentage is the 0 of the
    failure. *)
Lemma progress_stays_in_range_witness :
  progress_values
    (snd (execute_freecad_script Scenarios.scenario_b Scenarios.script (Some "u1")))
  = [0; 10; 20; 27; 29; 31; 0]%Z /\ (0 <= 31 <= 100)%Z.
Proof.
  split; [vm_compute; reflexivity|].
  apply (progress_stays_in_range Scenarios.scenario_b Scenarios.script (Some "u1") 31).
  vm_compute. tauto.
Defined.
